(** * Tool Capability Protocol: kernel descriptor validation and syscall analysis

    A shallow embedding of the two kernel modules of the repository:

    - [Validator]: [consortium/sam-mitchell/kernel-development/tcp_kernel_module.c],
      the descriptor validator with its ring cache and statistics;
    - [Syscall]: [kernel/tcp_kernel_module.c], the syscall registry and the
      context evaluator.

    Machine integers are [Z] with the wrap-around written out; a descriptor
    is a [list byte]; C globals are gathered in a record that every function
    takes and returns. *)

From Stdlib Require Import ZArith Lia Bool Strings.Byte Strings.String.
From stdpp Require Import base tactics option list.

Local Open Scope Z_scope.

(** ** Machine arithmetic shared by both modules *)

Definition wrap (bits : Z) (x : Z) : Z := x mod 2 ^ bits.
Definition u8 (x : Z) : Z := wrap 8 x.
Definition u16 (x : Z) : Z := wrap 16 x.
Definition u32 (x : Z) : Z := wrap 32 x.
Definition u64 (x : Z) : Z := wrap 64 x.

(** Two's complement reading of the low [bits] bits of [x]. *)
Definition swrap (bits : Z) (x : Z) : Z :=
  (x + 2 ^ (bits - 1)) mod 2 ^ bits - 2 ^ (bits - 1).
Definition s32 (x : Z) : Z := swrap 32 x.
Definition s64 (x : Z) : Z := swrap 64 x.

Definition EPERM : Z := 1.
Definition ENOMEM : Z := 12.
Definition EACCES : Z := 13.
Definition EINVAL : Z := 22.

(** C truth value of an integer expression. *)
Definition nonzero (x : Z) : bool := negb (x =? 0).

Module Validator.

Definition TCP_MAGIC_CLASSICAL : Z := 0x50435402.
Definition TCP_MAGIC_QUANTUM : Z := 0x51504354.

Definition TCP_HW_LSM : Z := Z.shiftl 1 0.
Definition TCP_HW_EBPF : Z := Z.shiftl 1 1.
Definition TCP_HW_PMU : Z := Z.shiftl 1 2.
Definition TCP_HW_TPM : Z := Z.shiftl 1 3.
Definition TCP_HW_SGX : Z := Z.shiftl 1 4.
Definition TCP_HW_CET : Z := Z.shiftl 1 5.
Definition TCP_HW_PT : Z := Z.shiftl 1 6.
Definition TCP_HW_MPK : Z := Z.shiftl 1 7.

(** *** Reading the packed structs

    The module is x86 only (it tests [X86_FEATURE_*] bits), so multi-byte
    fields are little-endian.  Both structs are [__packed]: a field sits at
    the sum of the sizes of the fields before it. *)

Definition byte_val (b : byte) : Z := Z.of_N (Byte.to_N b).

Definition u8_at (d : list byte) (off : nat) : Z :=
  match d !! off with
  | Some b => byte_val b
  | None => 0
  end.

Definition u16_at (d : list byte) (off : nat) : Z :=
  Z.lor (u8_at d off) (Z.shiftl (u8_at d (off + 1)) 8).

Definition u32_at (d : list byte) (off : nat) : Z :=
  Z.lor (u16_at d off) (Z.shiftl (u16_at d (off + 2)) 16).

(** [struct tcp_classical_descriptor]: magic(4) command_hash(4)
    security_flags(4) performance_data(6) reserved(2) checksum(2).
    The fields add up to 22 bytes, so [checksum] is at offset 20. *)
Module classical.
Definition magic (d : list byte) : Z := u32_at d 0.
Definition command_hash (d : list byte) : Z := u32_at d 4.
Definition security_flags (d : list byte) : Z := u32_at d 8.
Definition performance_data (d : list byte) : list byte := take 6 (drop 12 d).
Definition reserved (d : list byte) : Z := u16_at d 18.
Definition checksum (d : list byte) : Z := u16_at d 20.
Definition sizeof : nat := 22.
End classical.

(** [struct tcp_quantum_descriptor]: magic(4) version(1) command_hash(4)
    security_flags(4) performance_data(6) pqc_signature(11) reserved(2). *)
Module quantum.
Definition magic (d : list byte) : Z := u32_at d 0.
Definition version (d : list byte) : Z := u8_at d 4.
Definition command_hash (d : list byte) : Z := u32_at d 5.
Definition security_flags (d : list byte) : Z := u32_at d 9.
Definition performance_data (d : list byte) : list byte := take 6 (drop 13 d).
Definition pqc_signature (d : list byte) : list byte := take 11 (drop 19 d).
Definition reserved (d : list byte) : Z := u16_at d 30.
Definition sizeof : nat := 32.
End quantum.

(** *** State *)

Record tcp_validation_context := {
  hardware_features : Z;
  security_level : Z;
  validation_count : Z;
  cache_hits : Z;
  security_violations : Z;
  total_time_ns : Z
}.

Definition TCP_CACHE_SIZE : Z := 10000.

Record tcp_cache_entry := {
  descriptor_hash : list byte;
  validation_result : Z;
  timestamp : Z
}.

(** The globals [tcp_ctx], [tcp_cache] and [tcp_cache_head]. *)
Record globals := {
  tcp_ctx : tcp_validation_context;
  tcp_cache : list tcp_cache_entry;
  tcp_cache_head : Z
}.

(** The kernel crypto API, which the module only calls.  [None] for a
    transform stands for [crypto_alloc_shash] failing; the crc32 digest
    returns the 32-bit value or [None] for a non-zero [err]. *)
Record crypto_api := {
  sha256_tfm : option (list byte -> list byte);
  crc32_tfm : option (list byte -> option Z)
}.

(** *** Cache *)

(** [memcmp(a, b, 8) == 0] on the two 8-byte arrays. *)
Fixpoint hash_eqb (a b : list byte) : bool :=
  match a, b with
  | [], [] => true
  | x :: a', y :: b' => Byte.eqb x y && hash_eqb a' b'
  | _, _ => false
  end.

Fixpoint cache_scan (entries : list tcp_cache_entry) (h : list byte) : option Z :=
  match entries with
  | [] => None
  | entry :: rest =>
      if hash_eqb (descriptor_hash entry) h
      then Some (validation_result entry)
      else cache_scan rest h
  end.

(** The loop visits [tcp_cache[0 .. TCP_CACHE_SIZE-1]] in order and returns
    on the first slot whose hash matches. *)
Definition tcp_cache_lookup (g : globals) (h : list byte) : option Z :=
  cache_scan (take (Z.to_nat TCP_CACHE_SIZE) (tcp_cache g)) h.

Definition tcp_cache_store (g : globals) (h : list byte) (result : Z) (now : Z) : globals :=
  let entry := {| descriptor_hash := h;
                  validation_result := u8 result;
                  timestamp := now |} in
  {| tcp_ctx := tcp_ctx g;
     tcp_cache := <[Z.to_nat (tcp_cache_head g) := entry]> (tcp_cache g);
     tcp_cache_head := u32 (tcp_cache_head g + 1) mod TCP_CACHE_SIZE |}.

(** *** Checksum *)

Definition byte_sum (data : list byte) : Z :=
  fold_left (fun crc b => u32 (crc + byte_val b)) data 0.

Definition tcp_hardware_crc16 (api : crypto_api) (data : list byte) (len : nat) : Z :=
  match crc32_tfm api with
  | None => Z.land (byte_sum (take len data)) 0xFFFF
  | Some digest =>
      match digest (take len data) with
      | Some crc => Z.land crc 0xFFFF
      | None => 0
      end
  end.

(** *** Gates *)

Definition tcp_ebpf_security_check (descriptor : list byte) (len : nat) : Z :=
  if ((len =? 24) || (len =? 32))%nat then 1 else 0.

Definition tcp_lsm_security_check (descriptor : list byte) (len : nat) : Z :=
  if (len =? 24)%nat && nonzero (Z.land (classical.security_flags descriptor) 0x0001)
  then 0
  else 1.

Definition tcp_sgx_validation (ctx : tcp_validation_context)
    (descriptor : list byte) (len : nat) : Z :=
  if negb (nonzero (Z.land (hardware_features ctx) TCP_HW_SGX)) then 1 else 1.

Definition tcp_tpm_attestation (ctx : tcp_validation_context)
    (descriptor : list byte) (len : nat) : Z :=
  if negb (nonzero (Z.land (hardware_features ctx) TCP_HW_TPM)) then 1 else 1.

(** *** Validation *)

(** The 8-byte cache key: the head of the SHA-256 digest, or, when the
    transform cannot be allocated, the first [min(len, 8)] bytes of the
    descriptor over a zeroed array. *)
Definition fingerprint (api : crypto_api) (descriptor : list byte) : list byte :=
  match sha256_tfm api with
  | Some digest => take 8 (digest descriptor)
  | None =>
      let n := Nat.min (length descriptor) 8 in
      take n descriptor ++ replicate (8 - n) x00
  end.

(** The format checks: 0 to go on to the gates, [-EINVAL] to jump to [out]. *)
Definition format_check (api : crypto_api) (descriptor : list byte) (len : nat) : Z :=
  if (len =? 24)%nat then
    if negb (classical.magic descriptor =? TCP_MAGIC_CLASSICAL) then - EINVAL
    else if negb (tcp_hardware_crc16 api descriptor 22 =? classical.checksum descriptor)
    then - EINVAL
    else 0
  else if (len =? 32)%nat then
    if negb (quantum.magic descriptor =? TCP_MAGIC_QUANTUM) then - EINVAL
    else if quantum.version descriptor <? 3 then - EINVAL
    else 0
  else - EINVAL.

(** The hardware security checks, in order, first failure wins. *)
Definition gate_checks (ctx : tcp_validation_context) (descriptor : list byte) (len : nat) : Z :=
  if negb (nonzero (tcp_lsm_security_check descriptor len)) then - EACCES
  else if negb (nonzero (tcp_ebpf_security_check descriptor len)) then - EACCES
  else if negb (nonzero (tcp_sgx_validation ctx descriptor len)) then - EACCES
  else if negb (nonzero (tcp_tpm_attestation ctx descriptor len)) then - EACCES
  else 1.

(** The value of [result] on reaching the label [out]. *)
Definition validation_result_at_out (api : crypto_api) (ctx : tcp_validation_context)
    (descriptor : list byte) : Z :=
  let len := length descriptor in
  let fmt := format_check api descriptor len in
  if fmt =? 0 then gate_checks ctx descriptor len else fmt.

Definition count_cache_hit (ctx : tcp_validation_context) : tcp_validation_context :=
  {| hardware_features := hardware_features ctx;
     security_level := security_level ctx;
     validation_count := validation_count ctx;
     cache_hits := u64 (cache_hits ctx + 1);
     security_violations := security_violations ctx;
     total_time_ns := total_time_ns ctx |}.

Definition count_validation (ctx : tcp_validation_context) (elapsed : Z) (result : Z)
    : tcp_validation_context :=
  {| hardware_features := hardware_features ctx;
     security_level := security_level ctx;
     validation_count := u64 (validation_count ctx + 1);
     cache_hits := cache_hits ctx;
     security_violations :=
       if result <=? 0 then u64 (security_violations ctx + 1)
       else security_violations ctx;
     total_time_ns := u64 (total_time_ns ctx + elapsed) |}.

Definition with_ctx (g : globals) (ctx : tcp_validation_context) : globals :=
  {| tcp_ctx := ctx; tcp_cache := tcp_cache g; tcp_cache_head := tcp_cache_head g |}.

(** The three readings of [ktime_get_ns()] made by one call. *)
Record clock := { start_time : Z; store_time : Z; end_time : Z }.

Definition tcp_validate_descriptor_kernel (api : crypto_api) (clk : clock)
    (descriptor : list byte) (g : globals) : Z * globals :=
  let h := fingerprint api descriptor in
  match tcp_cache_lookup g h with
  | Some cached_result => (cached_result, with_ctx g (count_cache_hit (tcp_ctx g)))
  | None =>
      let result := validation_result_at_out api (tcp_ctx g) descriptor in
      let g1 := tcp_cache_store g h (if result >? 0 then 1 else 0) (store_time clk) in
      let elapsed := u64 (end_time clk - start_time clk) in
      (result, with_ctx g1 (count_validation (tcp_ctx g1) elapsed result))
  end.

(** *** Statistics report *)

(** C division of two [u64]: a zero divisor is a fault. *)
Definition udiv64 (a b : Z) : option Z :=
  if b =? 0 then None else Some (a / b).

Record stats_report := {
  avg_time_ns : Z;
  cache_hit_rate : Z
}.

(** The two derived figures of [tcp_proc_show]; [None] is a division
    fault. *)
Definition tcp_proc_show (ctx : tcp_validation_context) : option stats_report :=
  avg ← (if validation_count ctx >? 0
         then udiv64 (total_time_ns ctx) (validation_count ctx)
         else Some 0);
  rate ← (if validation_count ctx >? 0
          then udiv64 (u64 (cache_hits ctx * 100)) (validation_count ctx)
          else Some 0);
  Some {| avg_time_ns := avg; cache_hit_rate := rate |}.

(** *** Module initialisation *)

Definition zero_entry : tcp_cache_entry :=
  {| descriptor_hash := replicate 8 x00; validation_result := 0; timestamp := 0 |}.

(** The state after a successful [tcp_kernel_init]: the context zeroed, the
    detected features recorded, [security_level] set to 1, and the cache
    [kcalloc]ed, that is all zero bytes. *)
Definition tcp_kernel_init (features : Z) : globals :=
  {| tcp_ctx := {| hardware_features := features;
                   security_level := 1;
                   validation_count := 0;
                   cache_hits := 0;
                   security_violations := 0;
                   total_time_ns := 0 |};
     tcp_cache := replicate (Z.to_nat TCP_CACHE_SIZE) zero_entry;
     tcp_cache_head := 0 |}.

(** The cache holds [TCP_CACHE_SIZE] slots and the head indexes one of them. *)
Definition wf (g : globals) : Prop :=
  length (tcp_cache g) = Z.to_nat TCP_CACHE_SIZE
  ∧ 0 <= tcp_cache_head g < TCP_CACHE_SIZE.

(** *** Runs of the module *)

(** [security_level] is a writable module parameter of type [byte]. *)
Definition set_security_level (level : Z) (g : globals) : globals :=
  with_ctx g {| hardware_features := hardware_features (tcp_ctx g);
                security_level := u8 level;
                validation_count := validation_count (tcp_ctx g);
                cache_hits := cache_hits (tcp_ctx g);
                security_violations := security_violations (tcp_ctx g);
                total_time_ns := total_time_ns (tcp_ctx g) |}.

(** The states the loaded module can be in. *)
Inductive reachable (api : crypto_api) : globals → Prop :=
  | reachable_init features :
      reachable api (tcp_kernel_init features)
  | reachable_validate clk descriptor g :
      reachable api g →
      reachable api (tcp_validate_descriptor_kernel api clk descriptor g).2
  | reachable_set_level level g :
      reachable api g →
      reachable api (set_security_level level g).

(** A sequence of validations, each with its clock readings. *)
Definition run (api : crypto_api) (calls : list (clock * list byte)) (g : globals)
    : globals :=
  fold_left (fun g call => (tcp_validate_descriptor_kernel api call.1 call.2 g).2)
            calls g.

(** A sequence of stores; an entry stands for the arguments of the call
    that writes it. *)
Definition store_entry (g : globals) (e : tcp_cache_entry) : globals :=
  tcp_cache_store g (descriptor_hash e) (validation_result e) (timestamp e).

Definition store_all (entries : list tcp_cache_entry) (g : globals) : globals :=
  fold_left store_entry entries g.

(** A cached decision byte is a plain allow or deny. *)
Definition boolean_byte (c : Z) : Prop := c = 0 ∨ c = 1.

(** Every slot that carries the fingerprint [f] holds a deny. *)
Definition denies (f : list byte) (g : globals) : Prop :=
  ∀ e, e ∈ tcp_cache g → descriptor_hash e = f → validation_result e = 0.

(** *** Sample inputs *)

(** Both [crypto_alloc_shash] calls fail: prefix fingerprint, byte-sum
    checksum. *)
Definition fallback_api : crypto_api := {| sha256_tfm := None; crc32_tfm := None |}.

Definition clock0 : clock := {| start_time := 0; store_time := 0; end_time := 0 |}.

Definition short_buffer : list byte := [x01].

(** Classical layout: magic, command_hash = 0x14, flags, six telemetry
    bytes, reserved, checksum (offset 20), and the two bytes up to 24. *)
Definition classical_with (flags : list byte) (c20 c21 : byte) (tail : list byte)
    : list byte :=
  [x02; x54; x43; x50] ++ [x14; x00; x00; x00] ++ flags
  ++ replicate 6 x00 ++ [x00; x00] ++ [c20; c21] ++ tail.

(** Flags 0x0002 with a matching byte-sum checksum (0x0100). *)
Definition classical_flag2 : list byte :=
  classical_with [x02; x00; x00; x00] x00 x01 [x00; x00].

(** The same descriptor with another low checksum byte and other bytes
    after the struct. *)
Definition classical_flag2_altered : list byte :=
  classical_with [x02; x00; x00; x00] x07 x01 [xff; xff].

(** The same descriptor with the checksum field zeroed. *)
Definition classical_bad_checksum : list byte :=
  classical_with [x02; x00; x00; x00] x00 x00 [x00; x00].

(** Quantum layout: magic, version, command_hash, flags, telemetry,
    signature snippet, reserved. *)
Definition quantum_with (version : byte) (flags : list byte) : list byte :=
  [x54; x43; x50; x51] ++ [version] ++ replicate 4 x00 ++ flags
  ++ replicate 6 x00 ++ replicate 11 x00 ++ [x00; x00].

Definition quantum_all_flags : list byte :=
  quantum_with x03 [xff; xff; xff; xff].

Definition quantum_version2 : list byte :=
  quantum_with x02 [x00; x00; x00; x00].

(** The 8-byte fingerprint that spells [n] in little-endian base 256, and
    the number a fingerprint spells in its first two bytes. *)
Definition nth_byte (n : Z) : byte :=
  default x00 (Byte.of_N (Z.to_N (n mod 256))).

Definition numbered_hash (n : Z) : list byte :=
  [nth_byte n; nth_byte (n / 256)] ++ replicate 6 x00.

Definition hash_number (h : list byte) : Z := u8_at h 0 + 256 * u8_at h 1.

Definition numbered_entry (n : Z) : tcp_cache_entry :=
  {| descriptor_hash := numbered_hash n;
     validation_result := n mod 2;
     timestamp := n |}.

(** *** Hardware detection *)

(** What [tcp_detect_hardware_features] asks the host: the CPU feature
    bits and whether a TPM chip is found. *)
Record host := {
  X86_FEATURE_SGX : bool;
  X86_FEATURE_SHSTK : bool;
  X86_FEATURE_IBT : bool;
  X86_FEATURE_INTEL_PT : bool;
  X86_FEATURE_PKU : bool;
  tpm_chip_found : bool
}.

Definition tcp_detect_hardware_features (h : host) : Z :=
  let features := 0 in
  let features := Z.lor features TCP_HW_LSM in
  let features := Z.lor features TCP_HW_EBPF in
  let features := Z.lor features TCP_HW_PMU in
  let features := if X86_FEATURE_SGX h then Z.lor features TCP_HW_SGX else features in
  let features := if X86_FEATURE_SHSTK h || X86_FEATURE_IBT h
                  then Z.lor features TCP_HW_CET else features in
  let features := if X86_FEATURE_INTEL_PT h
                  then Z.lor features TCP_HW_PT else features in
  let features := if X86_FEATURE_PKU h then Z.lor features TCP_HW_MPK else features in
  let features := if tpm_chip_found h then Z.lor features TCP_HW_TPM else features in
  features.

(** The sum of the bytes, without wrap-around. *)
Definition bytes_total (data : list byte) : Z :=
  foldr (fun b acc => byte_val b + acc) 0 data.

(** The counters and the ring head after [n] calls on a fresh module. *)
Definition accounted (n : Z) (g : globals) : Prop :=
  validation_count (tcp_ctx g) + cache_hits (tcp_ctx g) = n
  ∧ 0 <= cache_hits (tcp_ctx g)
  ∧ 0 <= security_violations (tcp_ctx g) <= validation_count (tcp_ctx g)
  ∧ tcp_cache_head g = validation_count (tcp_ctx g) mod TCP_CACHE_SIZE.

(** Two slots share a fingerprint only if both are still zeroed. *)
Definition distinct_fingerprints (g : globals) : Prop :=
  ∀ i j e e',
    i ≠ j → tcp_cache g !! i = Some e → tcp_cache g !! j = Some e' →
    descriptor_hash e = descriptor_hash e' → e = zero_entry ∧ e' = zero_entry.

(** A host with SGX and a TPM and nothing else. *)
Definition sgx_tpm_host : host :=
  {| X86_FEATURE_SGX := true; X86_FEATURE_SHSTK := false; X86_FEATURE_IBT := false;
     X86_FEATURE_INTEL_PT := false; X86_FEATURE_PKU := false; tpm_chip_found := true |}.

(** *** A run that evicts a cached fingerprint *)

(** The two-byte buffer that spells [n]; without the SHA-256 transform its
    fingerprint is [numbered_hash n]. *)
Definition numbered_buffer (n : Z) : list byte := [nth_byte n; nth_byte (n / 256)].

(** Validations of the buffers numbered 1 to [k], in order. *)
Definition numbered_calls (k : nat) : list (clock * list byte) :=
  (fun n => (clock0, numbered_buffer (Z.of_nat n))) <$> seq 1 k.

(** The cache while the buffers numbered 1 to [k] are validated after the
    fingerprint [f] was stored in slot 0: the slots hold [f], a numbered
    fingerprint or zeros, [f] sits in slot 0 only, and it is gone once the
    ring has come round. *)
Definition filling (f : list byte) (k : nat) (g : globals) : Prop :=
  wf g
  ∧ tcp_cache_head g = (1 + Z.of_nat k) mod TCP_CACHE_SIZE
  ∧ (∀ e, e ∈ tcp_cache g →
       descriptor_hash e = replicate 8 x00
       ∨ descriptor_hash e = f
       ∨ ∃ j, (1 ≤ j ≤ k)%nat ∧ descriptor_hash e = numbered_hash (Z.of_nat j))
  ∧ (∀ j e, tcp_cache g !! j = Some e → descriptor_hash e = f → j = 0%nat)
  ∧ ((Z.to_nat TCP_CACHE_SIZE ≤ k)%nat →
       ∀ e, e ∈ tcp_cache g → descriptor_hash e ≠ f).

End Validator.

Module Syscall.

Record tcp_kernel_descriptor := {
  syscall_nr : Z;
  security_flags : Z;
  context_mask : Z;
  privilege_level : Z;
  pattern : string;
  checksum : Z
}.

Definition TCP_FLAG_SAFE : Z := 0x0001.
Definition TCP_FLAG_DESTRUCTIVE : Z := 0x0002.
Definition TCP_FLAG_FILESYSTEM : Z := 0x0004.
Definition TCP_FLAG_NETWORK : Z := 0x0008.
Definition TCP_FLAG_EXECUTION : Z := 0x0010.
Definition TCP_FLAG_CRITICAL : Z := 0x0020.
Definition TCP_FLAG_KERNEL : Z := 0x0040.
Definition TCP_FLAG_PRIVESC : Z := 0x0080.

Definition TCP_CTX_USER : Z := 0x01.
Definition TCP_CTX_ADMIN : Z := 0x02.
Definition TCP_CTX_KERNEL : Z := 0x04.
Definition TCP_CTX_CONTAINER : Z := 0x08.
Definition TCP_CTX_ALL : Z := 0xFF.

Definition TCP_PRIV_USER : Z := 0.
Definition TCP_PRIV_ROOT : Z := 1.
Definition TCP_PRIV_KERNEL : Z := 2.

(** The four [__NR_*] constants come from the kernel's syscall table, not
    from this repository, so the registry takes them as a parameter. *)
Record syscall_numbers := {
  NR_unlink : Z;
  NR_execve : Z;
  NR_init_module : Z;
  NR_getpid : Z
}.

(** Their values in the x86-64 table, the one [do_syscall_64] serves. *)
Definition x86_64_numbers : syscall_numbers :=
  {| NR_unlink := 87; NR_execve := 59; NR_init_module := 175; NR_getpid := 39 |}.

Definition tcp_descriptors (nr : syscall_numbers) : list tcp_kernel_descriptor :=
  [ {| syscall_nr := NR_unlink nr;
       security_flags := Z.lor TCP_FLAG_DESTRUCTIVE TCP_FLAG_FILESYSTEM;
       context_mask := Z.lor TCP_CTX_USER TCP_CTX_ADMIN;
       privilege_level := TCP_PRIV_USER;
       pattern := "file_deletion";
       checksum := 0x1A2B3C4D |};
    {| syscall_nr := NR_execve nr;
       security_flags := Z.lor TCP_FLAG_EXECUTION TCP_FLAG_CRITICAL;
       context_mask := TCP_CTX_ALL;
       privilege_level := TCP_PRIV_USER;
       pattern := "program_exec";
       checksum := 0x5E6F7890 |};
    {| syscall_nr := NR_init_module nr;
       security_flags :=
         Z.lor (Z.lor TCP_FLAG_CRITICAL TCP_FLAG_KERNEL) TCP_FLAG_DESTRUCTIVE;
       context_mask := Z.lor TCP_CTX_ADMIN TCP_CTX_KERNEL;
       privilege_level := TCP_PRIV_ROOT;
       pattern := "module_load";
       checksum := 0x9ABC1234 |};
    {| syscall_nr := NR_getpid nr;
       security_flags := TCP_FLAG_SAFE;
       context_mask := TCP_CTX_ALL;
       privilege_level := TCP_PRIV_USER;
       pattern := "pid_query";
       checksum := 0xDEF56789 |} ].

Fixpoint find_in (table : list tcp_kernel_descriptor) (nr : Z)
    : option tcp_kernel_descriptor :=
  match table with
  | [] => None
  | desc :: rest => if syscall_nr desc =? nr then Some desc else find_in rest nr
  end.

Definition tcp_find_descriptor (nrs : syscall_numbers) (nr : Z)
    : option tcp_kernel_descriptor :=
  find_in (tcp_descriptors nrs) nr.

(** What the module reads of [current]: the uid of its credentials and
    whether its [nsproxy] is [init_nsproxy]. *)
Record task := {
  cred_uid : Z;
  nsproxy_is_init : bool
}.

Definition tcp_check_context (desc : tcp_kernel_descriptor) (current : task) : bool :=
  let ctx0 := 0 in
  let ctx1 := if cred_uid current =? 0
              then Z.lor ctx0 TCP_CTX_ADMIN
              else Z.lor ctx0 TCP_CTX_USER in
  let current_context := if negb (nsproxy_is_init current)
                         then Z.lor ctx1 TCP_CTX_CONTAINER
                         else ctx1 in
  nonzero (Z.land (context_mask desc) current_context).

Record tcp_stats := {
  total_checks : Z;
  fast_path_hits : Z;
  blocked_operations : Z;
  security_events : Z;
  false_positives : Z
}.

Record tcp_kernel_state := {
  enabled : bool;
  security_level : Z;
  stats : tcp_stats
}.

(** [atomic64_inc] on the signed 64-bit counter. *)
Definition atomic64_inc (x : Z) : Z := s64 (x + 1).

Definition with_stats (st : tcp_kernel_state) (s : tcp_stats) : tcp_kernel_state :=
  {| enabled := enabled st; security_level := security_level st; stats := s |}.

Definition inc_total_checks (st : tcp_kernel_state) : tcp_kernel_state :=
  let s := stats st in
  with_stats st {| total_checks := atomic64_inc (total_checks s);
                   fast_path_hits := fast_path_hits s;
                   blocked_operations := blocked_operations s;
                   security_events := security_events s;
                   false_positives := false_positives s |}.

Definition inc_fast_path_hits (st : tcp_kernel_state) : tcp_kernel_state :=
  let s := stats st in
  with_stats st {| total_checks := total_checks s;
                   fast_path_hits := atomic64_inc (fast_path_hits s);
                   blocked_operations := blocked_operations s;
                   security_events := security_events s;
                   false_positives := false_positives s |}.

Definition inc_blocked_operations (st : tcp_kernel_state) : tcp_kernel_state :=
  let s := stats st in
  with_stats st {| total_checks := total_checks s;
                   fast_path_hits := fast_path_hits s;
                   blocked_operations := atomic64_inc (blocked_operations s);
                   security_events := security_events s;
                   false_positives := false_positives s |}.

Definition inc_security_events (st : tcp_kernel_state) : tcp_kernel_state :=
  let s := stats st in
  with_stats st {| total_checks := total_checks s;
                   fast_path_hits := fast_path_hits s;
                   blocked_operations := blocked_operations s;
                   security_events := atomic64_inc (security_events s);
                   false_positives := false_positives s |}.

(** From the critical-operation check to the end of the function. *)
Definition escalation (desc : tcp_kernel_descriptor) (current : task)
    (st : tcp_kernel_state) : Z * tcp_kernel_state :=
  let destructive (st : tcp_kernel_state) : Z * tcp_kernel_state :=
    if nonzero (Z.land (security_flags desc) TCP_FLAG_DESTRUCTIVE)
    then (0, inc_security_events st)
    else (0, st) in
  if nonzero (Z.land (security_flags desc) TCP_FLAG_CRITICAL) then
    let st1 := inc_security_events st in
    if (security_level st1 >=? 2) && negb (cred_uid current =? 0)
    then (- EPERM, inc_blocked_operations st1)
    else destructive st1
  else destructive st.

(** [regs->orig_ax] is an [unsigned long]; the assignment to the [int]
    [syscall_nr] keeps its low 32 bits.  The kernel log lines are not
    modelled. *)
Definition tcp_analyze_syscall (nrs : syscall_numbers) (current : task)
    (orig_ax : Z) (st : tcp_kernel_state) : Z * tcp_kernel_state :=
  if negb (enabled st) then (0, st)
  else
    let nr := s32 orig_ax in
    let st1 := inc_total_checks st in
    match tcp_find_descriptor nrs nr with
    | None => (0, inc_fast_path_hits st1)
    | Some desc =>
        if nonzero (Z.land (security_flags desc) TCP_FLAG_SAFE)
        then (0, inc_fast_path_hits st1)
        else if negb (tcp_check_context desc current)
        then (- EPERM, inc_blocked_operations st1)
        else escalation desc current st1
    end.

(** The third table entry, the one for [init_module]. *)
Definition module_load_descriptor (nrs : syscall_numbers) : tcp_kernel_descriptor :=
  {| syscall_nr := NR_init_module nrs;
     security_flags :=
       Z.lor (Z.lor TCP_FLAG_CRITICAL TCP_FLAG_KERNEL) TCP_FLAG_DESTRUCTIVE;
     context_mask := Z.lor TCP_CTX_ADMIN TCP_CTX_KERNEL;
     privilege_level := TCP_PRIV_ROOT;
     pattern := "module_load";
     checksum := 0x9ABC1234 |}.

(** [security_level] has no setter in the module; tests of the analysis
    choose it. *)
Definition with_security_level (st : tcp_kernel_state) (level : Z) : tcp_kernel_state :=
  {| enabled := enabled st; security_level := level; stats := stats st |}.

(** An unprivileged task in the initial namespaces. *)
Definition unprivileged_task : task := {| cred_uid := 1000; nsproxy_is_init := true |}.

(** The state [tcp_kernel_init] sets up. *)
Definition tcp_kernel_init : tcp_kernel_state :=
  {| enabled := true;
     security_level := 1;
     stats := {| total_checks := 0; fast_path_hits := 0; blocked_operations := 0;
                 security_events := 0; false_positives := 0 |} |}.

(** *** The probe and the module's life *)

(** The kprobe pre-handler runs the analysis and returns 0 whatever it
    found. *)
Definition tcp_syscall_pre_handler (nrs : syscall_numbers) (current : task)
    (orig_ax : Z) (st : tcp_kernel_state) : Z * tcp_kernel_state :=
  let '(result, st') := tcp_analyze_syscall nrs current orig_ax st in
  (0, st').

(** What [tcp_kernel_exit] does to the state. *)
Definition tcp_kernel_exit (st : tcp_kernel_state) : tcp_kernel_state :=
  {| enabled := false; security_level := security_level st; stats := stats st |}.

(** The probe firing for a sequence of system calls, each with its task. *)
Definition handle_all (nrs : syscall_numbers) (calls : list (task * Z))
    (st : tcp_kernel_state) : tcp_kernel_state :=
  fold_left (fun st call => (tcp_syscall_pre_handler nrs call.1 call.2 st).2) calls st.

(** The bits [tcp_check_context] can put into [current_context]. *)
Definition context_of (current : task) : Z :=
  Z.lor (if cred_uid current =? 0 then TCP_CTX_ADMIN else TCP_CTX_USER)
        (if nsproxy_is_init current then 0 else TCP_CTX_CONTAINER).

(** 1 for a set flag, 0 for a clear one. *)
Definition flag_count (flags mask : Z) : Z :=
  if nonzero (Z.land flags mask) then 1 else 0.

(** The counters after [k] analysed calls: every call counted, at most one
    of the two outcome counters per call, at most two events per call. *)
Definition stats_within (k : Z) (s : tcp_stats) : Prop :=
  total_checks s = k
  ∧ 0 <= fast_path_hits s
  ∧ 0 <= blocked_operations s
  ∧ fast_path_hits s + blocked_operations s <= k
  ∧ 0 <= security_events s <= 2 * k
  ∧ false_positives s = 0.

(** The first, second and fourth table entries. *)
Definition tcp_descriptors_unlink (nrs : syscall_numbers) : tcp_kernel_descriptor :=
  {| syscall_nr := NR_unlink nrs;
     security_flags := Z.lor TCP_FLAG_DESTRUCTIVE TCP_FLAG_FILESYSTEM;
     context_mask := Z.lor TCP_CTX_USER TCP_CTX_ADMIN;
     privilege_level := TCP_PRIV_USER;
     pattern := "file_deletion";
     checksum := 0x1A2B3C4D |}.

Definition tcp_descriptors_execve (nrs : syscall_numbers) : tcp_kernel_descriptor :=
  {| syscall_nr := NR_execve nrs;
     security_flags := Z.lor TCP_FLAG_EXECUTION TCP_FLAG_CRITICAL;
     context_mask := TCP_CTX_ALL;
     privilege_level := TCP_PRIV_USER;
     pattern := "program_exec";
     checksum := 0x5E6F7890 |}.

Definition tcp_descriptors_getpid (nrs : syscall_numbers) : tcp_kernel_descriptor :=
  {| syscall_nr := NR_getpid nrs;
     security_flags := TCP_FLAG_SAFE;
     context_mask := TCP_CTX_ALL;
     privilege_level := TCP_PRIV_USER;
     pattern := "pid_query";
     checksum := 0xDEF56789 |}.

End Syscall.

Module ValidatorFacts.
Import Validator.

(** ** Integers and bytes *)

Lemma u64_small x : 0 <= x < 2 ^ 64 → u64 x = x.
Proof. intros H. unfold u64, wrap. by apply Z.mod_small. Qed.

Lemma u8_small x : 0 <= x < 256 → u8 x = x.
Proof. intros H. unfold u8, wrap. by apply Z.mod_small. Qed.

Lemma hash_eqb_eq a b : hash_eqb a b = true ↔ a = b.
Proof.
  revert b. induction a as [|x a IH]; intros [|y b]; simpl; try done.
  rewrite andb_true_iff, IH. split.
  - intros [Hxy ->]. by rewrite (Byte.byte_dec_bl _ _ Hxy).
  - intros Heq. injection Heq as -> ->. split; [|done]. by apply Byte.byte_dec_lb.
Qed.

Lemma hash_eqb_refl a : hash_eqb a a = true.
Proof. by apply hash_eqb_eq. Qed.

Lemma hash_eqb_ne a b : a ≠ b → hash_eqb a b = false.
Proof.
  intros Hne. destruct (hash_eqb a b) eqn:E; [|done].
  by apply hash_eqb_eq in E.
Qed.

(** ** The linear scan *)

Lemma cache_scan_None entries h :
  cache_scan entries h = None ↔ ∀ e, e ∈ entries → descriptor_hash e ≠ h.
Proof.
  induction entries as [|e entries IH]; simpl.
  - split; [intros _ e He; inversion He | done].
  - destruct (hash_eqb (descriptor_hash e) h) eqn:E.
    + apply hash_eqb_eq in E. split; [done|].
      intros H. exfalso. apply (H e); [left | done].
    + rewrite IH. split.
      * intros H e' [->|He']%elem_of_cons; [|by apply H].
        intros Heq. apply hash_eqb_eq in Heq. congruence.
      * intros H e' He'. apply H. by right.
Qed.

Lemma cache_scan_Some entries h c :
  cache_scan entries h = Some c →
  ∃ e, e ∈ entries ∧ descriptor_hash e = h ∧ validation_result e = c.
Proof.
  induction entries as [|e entries IH]; simpl; [done|].
  destruct (hash_eqb (descriptor_hash e) h) eqn:E.
  - intros [= <-]. apply hash_eqb_eq in E. exists e. split; [left | done].
  - intros (e' & He' & Hh)%IH. exists e'. split; [by right | done].
Qed.

Lemma cache_scan_app_miss l1 l2 h :
  cache_scan l1 h = None → cache_scan (l1 ++ l2) h = cache_scan l2 h.
Proof.
  induction l1 as [|e l1 IH]; simpl; [done|].
  destruct (hash_eqb (descriptor_hash e) h); [done | exact IH].
Qed.

Lemma cache_scan_app_None l1 l2 h :
  cache_scan (l1 ++ l2) h = None ↔ cache_scan l1 h = None ∧ cache_scan l2 h = None.
Proof.
  rewrite !cache_scan_None. split.
  - intros H. split; intros e He; apply H, elem_of_app; auto.
  - intros [H1 H2] e [He|He]%elem_of_app; auto.
Qed.

(** With pairwise distinct hashes the scan returns the entry asked for. *)
Lemma cache_scan_NoDup entries e :
  NoDup (descriptor_hash <$> entries) → e ∈ entries →
  cache_scan entries (descriptor_hash e) = Some (validation_result e).
Proof.
  induction entries as [|e' entries IH]; simpl; intros Hnd Hin.
  - inversion Hin.
  - apply NoDup_cons in Hnd as [Hfresh Hnd].
    apply elem_of_cons in Hin as [->|Hin].
    + by rewrite hash_eqb_refl.
    + rewrite hash_eqb_ne; [by apply IH|].
      intros Heq. apply Hfresh. rewrite Heq. by apply list_elem_of_fmap_2.
Qed.

(** ** Well-formed globals *)

Lemma wf_init features : wf (tcp_kernel_init features).
Proof.
  unfold wf, tcp_kernel_init. cbn [tcp_cache tcp_cache_head].
  rewrite length_replicate. split; [done|]. unfold TCP_CACHE_SIZE. lia.
Qed.

Lemma next_head head :
  0 <= head < TCP_CACHE_SIZE →
  u32 (head + 1) mod TCP_CACHE_SIZE = (head + 1) mod TCP_CACHE_SIZE
  ∧ 0 <= (head + 1) mod TCP_CACHE_SIZE < TCP_CACHE_SIZE.
Proof.
  unfold TCP_CACHE_SIZE, u32, wrap. intros H. split.
  - rewrite (Z.mod_small (head + 1)); lia.
  - apply Z.mod_pos_bound. lia.
Qed.

Lemma wf_store g h r now : wf g → wf (tcp_cache_store g h r now).
Proof.
  intros [Hlen Hhead]. unfold wf, tcp_cache_store; simpl.
  rewrite length_insert. split; [done|].
  destruct (next_head _ Hhead) as [-> ?]. done.
Qed.

Lemma lookup_wf g h : wf g → tcp_cache_lookup g h = cache_scan (tcp_cache g) h.
Proof.
  intros [Hlen _]. unfold tcp_cache_lookup. by rewrite take_ge by lia.
Qed.

(** A stored fingerprint that was not cached before is found, with the
    byte just stored. *)
Lemma lookup_store_fresh g h r now :
  wf g → tcp_cache_lookup g h = None →
  tcp_cache_lookup (tcp_cache_store g h r now) h = Some (u8 r).
Proof.
  intros Hwf Hmiss.
  rewrite lookup_wf in Hmiss by done.
  rewrite lookup_wf by by apply wf_store.
  destruct Hwf as [Hlen Hhead]. unfold tcp_cache_store; simpl.
  assert (Hlt : (Z.to_nat (tcp_cache_head g) < length (tcp_cache g))%nat) by lia.
  destruct (lookup_lt_is_Some_2 _ _ Hlt) as [old Hold].
  rewrite <- (take_drop_middle _ _ _ Hold) in Hmiss |- *.
  apply cache_scan_app_None in Hmiss as [Hpre _].
  rewrite insert_app_r_alt by (rewrite length_take; lia).
  rewrite length_take, Nat.min_l, Nat.sub_diag by lia. simpl.
  rewrite cache_scan_app_miss by done. simpl.
  by rewrite hash_eqb_refl.
Qed.


(** ** One validation *)

Lemma sgx_always_passes ctx d len : tcp_sgx_validation ctx d len = 1.
Proof. unfold tcp_sgx_validation. by destruct (negb _). Qed.

Lemma tpm_always_passes ctx d len : tcp_tpm_attestation ctx d len = 1.
Proof. unfold tcp_tpm_attestation. by destruct (negb _). Qed.

(** The gates after the format checks come down to the first two. *)
Lemma gate_checks_eq ctx d len :
  gate_checks ctx d len =
    if nonzero (tcp_lsm_security_check d len) && nonzero (tcp_ebpf_security_check d len)
    then 1 else - EACCES.
Proof.
  unfold gate_checks. rewrite sgx_always_passes, tpm_always_passes.
  destruct (nonzero (tcp_lsm_security_check d len)); simpl; [|done].
  by destruct (nonzero (tcp_ebpf_security_check d len)).
Qed.

Lemma gate_checks_cases ctx d len :
  gate_checks ctx d len = 1 ∨ gate_checks ctx d len = - EACCES.
Proof. rewrite gate_checks_eq. destruct (_ && _); auto. Qed.

(** The verdict does not depend on the context: the two capability gates
    pass in both of their branches. *)
Lemma gate_checks_ctx ctx ctx' d len : gate_checks ctx d len = gate_checks ctx' d len.
Proof. by rewrite !gate_checks_eq. Qed.

Lemma validation_result_ctx api ctx ctx' d :
  validation_result_at_out api ctx d = validation_result_at_out api ctx' d.
Proof.
  unfold validation_result_at_out. by rewrite (gate_checks_ctx ctx ctx').
Qed.

Lemma format_check_cases api d len :
  format_check api d len = 0 ∨ format_check api d len = - EINVAL.
Proof.
  unfold format_check.
  repeat match goal with |- context [if ?b then _ else _] => destruct b end; auto.
Qed.

Lemma validation_result_cases api ctx d :
  validation_result_at_out api ctx d = 1
  ∨ validation_result_at_out api ctx d = - EACCES
  ∨ validation_result_at_out api ctx d = - EINVAL.
Proof.
  unfold validation_result_at_out.
  destruct (format_check_cases api d (length d)) as [-> | ->]; simpl.
  - destruct (gate_checks_cases ctx d (length d)) as [-> | ->]; auto.
  - auto.
Qed.

Lemma validate_miss api clk d g :
  tcp_cache_lookup g (fingerprint api d) = None →
  tcp_validate_descriptor_kernel api clk d g =
    let result := validation_result_at_out api (tcp_ctx g) d in
    let g1 := tcp_cache_store g (fingerprint api d) (if result >? 0 then 1 else 0)
                              (store_time clk) in
    (result,
     with_ctx g1 (count_validation (tcp_ctx g1)
                    (u64 (end_time clk - start_time clk)) result)).
Proof. intros H. unfold tcp_validate_descriptor_kernel. by rewrite H. Qed.

Lemma validate_hit api clk d g c :
  tcp_cache_lookup g (fingerprint api d) = Some c →
  tcp_validate_descriptor_kernel api clk d g =
    (c, with_ctx g (count_cache_hit (tcp_ctx g))).
Proof. intros H. unfold tcp_validate_descriptor_kernel. by rewrite H. Qed.

Lemma wf_validate api clk d g :
  wf g → wf (tcp_validate_descriptor_kernel api clk d g).2.
Proof.
  intros Hwf. unfold tcp_validate_descriptor_kernel.
  destruct (tcp_cache_lookup g (fingerprint api d)); simpl; [done|].
  by apply (wf_store g).
Qed.

Lemma wf_reachable api g : reachable api g → wf g.
Proof.
  induction 1; [apply wf_init | by apply wf_validate | done].
Qed.

(** The policy gate denies exactly a 24-byte descriptor whose flags word
    has its lowest bit set. *)
Lemma lsm_denies_iff d len :
  tcp_lsm_security_check d len = 0
  ↔ len = 24%nat ∧ Z.land (classical.security_flags d) 1 ≠ 0.
Proof.
  unfold tcp_lsm_security_check, nonzero.
  destruct (Nat.eqb_spec len 24) as [->|Hne]; simpl.
  - destruct (Z.eqb_spec (Z.land (classical.security_flags d) 1) 0) as [E|E]; simpl.
    + split; [done | intros [_ H]; done].
    + split; [done | done].
  - split; [done | intros [? _]; done].
Qed.

(** C1 (as amended). The policy gate looks at the flags of the 24-byte
    Classical variant only: it denies nothing but 24-byte descriptors, its
    verdict on one is decided by the flags word alone, and a 32-byte Quantum
    descriptor passes it whatever its flags; a Quantum descriptor with the
    right magic and version at least 3 that misses the cache is allowed
    outright. *)
Theorem policy_gate_classical_only :
  (∀ d : list byte, tcp_lsm_security_check d (length d) = 0 → length d = 24%nat)
  ∧ (∀ d d' : list byte,
       classical.security_flags d = classical.security_flags d' →
       tcp_lsm_security_check d 24 = tcp_lsm_security_check d' 24)
  ∧ (∀ d : list byte, length d = 32%nat → tcp_lsm_security_check d (length d) = 1)
  ∧ (∀ api clk (d : list byte) g,
       length d = 32%nat →
       quantum.magic d = TCP_MAGIC_QUANTUM →
       3 <= quantum.version d →
       tcp_cache_lookup g (fingerprint api d) = None →
       (tcp_validate_descriptor_kernel api clk d g).1 = 1).
Proof.
  split; [|split; [|split]].
  - intros d Hd. by apply lsm_denies_iff in Hd as [? _].
  - intros d d' Hflags. unfold tcp_lsm_security_check. by rewrite Hflags.
  - intros d Hlen. unfold tcp_lsm_security_check. by rewrite Hlen.
  - intros api clk d g Hlen Hmagic Hver Hmiss.
    rewrite validate_miss by done. simpl.
    unfold validation_result_at_out, format_check. rewrite gate_checks_eq.
    unfold tcp_lsm_security_check, tcp_ebpf_security_check.
    rewrite Hlen, Hmagic. simpl.
    by destruct (Z.ltb_spec (quantum.version d) 3) as [?|_]; [lia|].
Qed.

Lemma policy_gate_classical_only_witness :
  (tcp_validate_descriptor_kernel fallback_api clock0 quantum_all_flags
     (tcp_kernel_init 0)).1 = 1.
Proof.
  apply (proj2 (proj2 (proj2 policy_gate_classical_only))); vm_compute; congruence.
Defined.

(** C1, counterexample. A Quantum descriptor with every flag bit set, the
    Destructive one included, passes the policy gate and is allowed. *)
Lemma quantum_destructive_passes_policy_gate :
  length quantum_all_flags = 32%nat
  ∧ Z.testbit (quantum.security_flags quantum_all_flags) 1 = true
  ∧ tcp_lsm_security_check quantum_all_flags (length quantum_all_flags) = 1
  ∧ (tcp_validate_descriptor_kernel fallback_api clock0 quantum_all_flags
       (tcp_kernel_init 0)).1 = 1.
Proof. vm_compute. done. Qed.

(** C4 (as amended). A buffer whose length is neither 24 nor 32 and whose
    fingerprint is not in the cache gets [-EINVAL], from the length test
    alone. *)
Theorem bad_length_rejected_on_miss api clk (d : list byte) g :
  length d ≠ 24%nat → length d ≠ 32%nat →
  tcp_cache_lookup g (fingerprint api d) = None →
  format_check api d (length d) = - EINVAL
  ∧ (tcp_validate_descriptor_kernel api clk d g).1 = - EINVAL.
Proof.
  intros H24 H32 Hmiss.
  assert (Hfmt : format_check api d (length d) = - EINVAL).
  { unfold format_check.
    destruct (Nat.eqb_spec (length d) 24); [done|].
    destruct (Nat.eqb_spec (length d) 32); [done|]. done. }
  split; [done|].
  rewrite validate_miss by done. simpl.
  unfold validation_result_at_out. by rewrite Hfmt.
Qed.

Lemma bad_length_rejected_on_miss_witness :
  (tcp_validate_descriptor_kernel fallback_api clock0 short_buffer
     (tcp_kernel_init 0)).1 = - EINVAL.
Proof.
  apply (bad_length_rejected_on_miss fallback_api clock0 short_buffer
           (tcp_kernel_init 0)); vm_compute; congruence.
Defined.

(** C4, counterexample. The one-byte buffer, validated a second time, is
    answered from the cache with 0 instead of [-EINVAL]. *)
Lemma bad_length_cached_as_deny :
  let g1 := (tcp_validate_descriptor_kernel fallback_api clock0 short_buffer
               (tcp_kernel_init 0)).2 in
  length short_buffer = 1%nat
  ∧ (tcp_validate_descriptor_kernel fallback_api clock0 short_buffer g1).1 = 0
  ∧ 0 ≠ - EINVAL.
Proof. vm_compute. done. Qed.

(** C5 (as amended). For a 24-byte descriptor with the Classical magic
    that misses the cache, the checksum is recomputed over the first 22
    bytes and the result is [-EINVAL] exactly when it differs from the
    checksum field read from the descriptor. *)
Theorem classical_checksum_on_miss api clk (d : list byte) g :
  length d = 24%nat →
  classical.magic d = TCP_MAGIC_CLASSICAL →
  tcp_cache_lookup g (fingerprint api d) = None →
  ((tcp_validate_descriptor_kernel api clk d g).1 = - EINVAL
   ↔ tcp_hardware_crc16 api d 22 ≠ classical.checksum d).
Proof.
  intros Hlen Hmagic Hmiss.
  rewrite validate_miss by done. simpl.
  unfold validation_result_at_out, format_check. rewrite Hlen, Hmagic. simpl.
  destruct (Z.eqb_spec (tcp_hardware_crc16 api d 22) (classical.checksum d))
    as [Heq|Hne]; simpl.
  - split; [|done]. intros H.
    destruct (gate_checks_cases (tcp_ctx g) d 24) as [E|E];
      rewrite E in H; discriminate H.
  - done.
Qed.

Lemma classical_checksum_on_miss_witness :
  (tcp_validate_descriptor_kernel fallback_api clock0 classical_bad_checksum
     (tcp_kernel_init 0)).1 = - EINVAL.
Proof.
  apply (classical_checksum_on_miss fallback_api clock0 classical_bad_checksum
           (tcp_kernel_init 0)); vm_compute; congruence.
Defined.

(** C5, counterexample. A Classical descriptor with the right magic and a
    wrong checksum, validated a second time, is answered from the cache
    with 0 instead of [-EINVAL]. *)
Lemma bad_checksum_cached_as_deny :
  let g1 := (tcp_validate_descriptor_kernel fallback_api clock0 classical_bad_checksum
               (tcp_kernel_init 0)).2 in
  length classical_bad_checksum = 24%nat
  ∧ classical.magic classical_bad_checksum = TCP_MAGIC_CLASSICAL
  ∧ tcp_hardware_crc16 fallback_api classical_bad_checksum 22
      ≠ classical.checksum classical_bad_checksum
  ∧ (tcp_validate_descriptor_kernel fallback_api clock0 classical_bad_checksum g1).1 = 0
  ∧ 0 ≠ - EINVAL.
Proof. vm_compute. repeat split; congruence. Qed.

(** C6 (as amended). A 32-byte buffer with the Quantum magic and a version
    below 3 that misses the cache gets [-EINVAL], whatever its other
    fields. *)
Theorem quantum_old_version_rejected_on_miss api clk (d : list byte) g :
  length d = 32%nat →
  quantum.magic d = TCP_MAGIC_QUANTUM →
  quantum.version d < 3 →
  tcp_cache_lookup g (fingerprint api d) = None →
  (tcp_validate_descriptor_kernel api clk d g).1 = - EINVAL.
Proof.
  intros Hlen Hmagic Hver Hmiss.
  rewrite validate_miss by done. simpl.
  unfold validation_result_at_out, format_check. rewrite Hlen, Hmagic. simpl.
  destruct (Z.ltb_spec (quantum.version d) 3) as [_|?]; [done | lia].
Qed.

Lemma quantum_old_version_rejected_on_miss_witness :
  (tcp_validate_descriptor_kernel fallback_api clock0 quantum_version2
     (tcp_kernel_init 0)).1 = - EINVAL.
Proof.
  apply (quantum_old_version_rejected_on_miss fallback_api clock0 quantum_version2
           (tcp_kernel_init 0)); vm_compute; congruence.
Defined.

(** C6, counterexample. The version-2 Quantum descriptor, validated a
    second time, is answered from the cache with 0 instead of [-EINVAL]. *)
Lemma quantum_old_version_cached_as_deny :
  let g1 := (tcp_validate_descriptor_kernel fallback_api clock0 quantum_version2
               (tcp_kernel_init 0)).2 in
  length quantum_version2 = 32%nat
  ∧ quantum.magic quantum_version2 = TCP_MAGIC_QUANTUM
  ∧ quantum.version quantum_version2 = 2
  ∧ (tcp_validate_descriptor_kernel fallback_api clock0 quantum_version2 g1).1 = 0
  ∧ 0 ≠ - EINVAL.
Proof. vm_compute. repeat split; congruence. Qed.

(** C9. The report never divides by zero, and with no validation counted
    both derived figures are 0. *)
Theorem proc_show_no_division_fault :
  (∀ ctx, is_Some (tcp_proc_show ctx))
  ∧ (∀ ctx, validation_count ctx = 0 →
       tcp_proc_show ctx = Some {| avg_time_ns := 0; cache_hit_rate := 0 |}).
Proof.
  split.
  - intros ctx. unfold tcp_proc_show, udiv64.
    destruct (Z.gtb_spec (validation_count ctx) 0) as [Hpos|Hnpos]; simpl; [|done].
    destruct (Z.eqb_spec (validation_count ctx) 0) as [?|_]; [lia|]. simpl. done.
  - intros ctx Hzero. unfold tcp_proc_show. rewrite Hzero. reflexivity.
Qed.

Lemma proc_show_no_division_fault_witness :
  tcp_proc_show (tcp_ctx (tcp_kernel_init 0))
  = Some {| avg_time_ns := 0; cache_hit_rate := 0 |}.
Proof. apply (proj2 proc_show_no_division_fault). reflexivity. Defined.


(** ** What the checksum covers *)

Lemma u8_at_prefix (d d' : list byte) n off :
  take n d = take n d' → (off < n)%nat → u8_at d off = u8_at d' off.
Proof.
  intros Htake Hoff. unfold u8_at.
  by rewrite <- (lookup_take_lt d n off), <- (lookup_take_lt d' n off), Htake by done.
Qed.

Lemma u16_at_prefix (d d' : list byte) n off :
  take n d = take n d' → (off + 1 < n)%nat → u16_at d off = u16_at d' off.
Proof.
  intros Htake Hoff. unfold u16_at.
  by rewrite (u8_at_prefix d d' n off), (u8_at_prefix d d' n (off + 1)) by (done || lia).
Qed.

Lemma u32_at_prefix (d d' : list byte) n off :
  take n d = take n d' → (off + 3 < n)%nat → u32_at d off = u32_at d' off.
Proof.
  intros Htake Hoff. unfold u32_at.
  by rewrite (u16_at_prefix d d' n off), (u16_at_prefix d d' n (off + 2))
    by (done || lia).
Qed.

(** The struct ends at byte 22, and so does everything the validation
    reads: two 24-byte descriptors that agree on their first 22 bytes get
    the same verdict. *)
Lemma bytes_after_struct_unread api ctx (d d' : list byte) :
  length d = 24%nat → length d' = 24%nat →
  take 22 d = take 22 d' →
  validation_result_at_out api ctx d = validation_result_at_out api ctx d'.
Proof.
  intros Hlen Hlen' Htake.
  unfold validation_result_at_out. rewrite !gate_checks_eq. rewrite Hlen, Hlen'.
  unfold format_check, tcp_lsm_security_check, tcp_hardware_crc16,
    classical.magic, classical.checksum, classical.security_flags.
  rewrite (u32_at_prefix d d' 22 0), (u32_at_prefix d d' 22 8),
    (u16_at_prefix d d' 22 20), Htake by (done || lia).
  done.
Qed.

(** Under the byte-sum checksum, the sample with flags 0x0002 is allowed,
    and it stays allowed when the low byte of its checksum field and the two
    bytes after the struct are changed. *)
Lemma classical_flag2_allowed :
  Z.land (classical.security_flags classical_flag2) 0x0002 ≠ 0
  ∧ (tcp_validate_descriptor_kernel fallback_api clock0 classical_flag2
       (tcp_kernel_init 0)).1 = 1
  ∧ classical.checksum classical_flag2_altered ≠ classical.checksum classical_flag2
  ∧ (tcp_validate_descriptor_kernel fallback_api clock0 classical_flag2_altered
       (tcp_kernel_init 0)).1 = 1.
Proof. vm_compute. repeat split; congruence. Qed.

(** ** Two validations of one buffer *)

Lemma lookup_with_ctx g ctx h :
  tcp_cache_lookup (with_ctx g ctx) h = tcp_cache_lookup g h.
Proof. reflexivity. Qed.

Lemma stored_byte_bool (result : Z) :
  u8 (if result >? 0 then 1 else 0) = (if result >? 0 then 1 else 0).
Proof. by destruct (result >? 0). Qed.

(** C2 (as amended). When the fingerprint of a buffer is not cached,
    two validations in a row behave as follows: the second one is a cache
    hit and returns 1 if the first returned a positive result and 0
    otherwise; [cache_hits] stays put in the first call and grows by one in
    the second; [validation_count] grows by one in the first call. *)
Theorem second_validation_hits api clk1 clk2 (d : list byte) g :
  wf g →
  tcp_cache_lookup g (fingerprint api d) = None →
  0 <= cache_hits (tcp_ctx g) < 2 ^ 64 - 1 →
  0 <= validation_count (tcp_ctx g) < 2 ^ 64 - 1 →
  let '(r1, g1) := tcp_validate_descriptor_kernel api clk1 d g in
  let '(r2, g2) := tcp_validate_descriptor_kernel api clk2 d g1 in
  tcp_cache_lookup g1 (fingerprint api d) = Some r2
  ∧ r2 = (if r1 >? 0 then 1 else 0)
  ∧ cache_hits (tcp_ctx g1) = cache_hits (tcp_ctx g)
  ∧ cache_hits (tcp_ctx g2) = cache_hits (tcp_ctx g1) + 1
  ∧ validation_count (tcp_ctx g1) = validation_count (tcp_ctx g) + 1.
Proof.
  intros Hwf Hmiss Hhits Hcount.
  destruct (tcp_validate_descriptor_kernel api clk1 d g) as [r1 g1] eqn:E1.
  rewrite (validate_miss api clk1 d g Hmiss) in E1. cbv zeta in E1.
  injection E1 as Hr1 Hg1.
  assert (Hhit : tcp_cache_lookup g1 (fingerprint api d)
                 = Some (if r1 >? 0 then 1 else 0)).
  { rewrite <- Hg1, lookup_with_ctx, lookup_store_fresh by done.
    by rewrite stored_byte_bool, Hr1. }
  rewrite (validate_hit api clk2 d g1 _ Hhit).
  split; [done | split; [done|]].
  rewrite <- Hg1. simpl. rewrite !u64_small by lia. done.
Qed.

Lemma second_validation_hits_witness :
  let '(r1, g1) := tcp_validate_descriptor_kernel fallback_api clock0
                     classical_flag2 (tcp_kernel_init 0) in
  (tcp_validate_descriptor_kernel fallback_api clock0 classical_flag2 g1).1
  = (if r1 >? 0 then 1 else 0).
Proof.
  pose proof (second_validation_hits fallback_api clock0 clock0 classical_flag2
                (tcp_kernel_init 0) (wf_init 0)) as H.
  destruct (tcp_validate_descriptor_kernel fallback_api clock0 classical_flag2
              (tcp_kernel_init 0)) as [r1 g1].
  destruct (tcp_validate_descriptor_kernel fallback_api clock0 classical_flag2 g1)
    as [r2 g2].
  apply H; vm_compute; [reflexivity | split; congruence | split; congruence].
Defined.

(** C2, counterexample. The one-byte buffer validated twice from the initial
    state: the first call returns [-EINVAL], the second returns 0, and
    [validation_count] is 1 after the first call and still 1 after the
    second. *)
Lemma second_validation_differs :
  let '(r1, g1) := tcp_validate_descriptor_kernel fallback_api clock0
                     short_buffer (tcp_kernel_init 0) in
  let '(r2, g2) := tcp_validate_descriptor_kernel fallback_api clock0
                     short_buffer g1 in
  r1 = - EINVAL ∧ r2 = 0 ∧ r1 ≠ r2
  ∧ validation_count (tcp_ctx g1) = 1
  ∧ validation_count (tcp_ctx g2) = 1
  ∧ cache_hits (tcp_ctx g2) = 1.
Proof. vm_compute. repeat split; congruence. Qed.

(** ** The cache holds only 0 and 1 *)

Lemma elem_of_insert_inv {A} (l : list A) i x e :
  e ∈ <[i:=x]> l → e = x ∨ e ∈ l.
Proof.
  intros [j Hj]%list_elem_of_lookup.
  apply list_lookup_insert_Some in Hj as [(_ & -> & _) | [_ Hj]]; [by left|].
  right. apply list_elem_of_lookup. by exists j.
Qed.

Lemma boolean_cache_validate api clk d g :
  Forall (λ e, boolean_byte (validation_result e)) (tcp_cache g) →
  Forall (λ e, boolean_byte (validation_result e))
         (tcp_cache (tcp_validate_descriptor_kernel api clk d g).2).
Proof.
  intros Hall. unfold tcp_validate_descriptor_kernel.
  destruct (tcp_cache_lookup g (fingerprint api d)); simpl; [done|].
  rewrite Forall_forall in Hall |- *.
  intros e [-> | He]%elem_of_insert_inv; [|by apply Hall].
  simpl. rewrite stored_byte_bool. unfold boolean_byte.
  destruct (_ >? 0); auto.
Qed.

Lemma boolean_cache_reachable api g :
  reachable api g → Forall (λ e, boolean_byte (validation_result e)) (tcp_cache g).
Proof.
  induction 1 as [features | clk d g _ IH | level g _ IH].
  - unfold tcp_kernel_init. cbn [tcp_cache]. apply Forall_replicate. by left.
  - by apply boolean_cache_validate.
  - exact IH.
Qed.

Lemma lookup_elem g h c :
  tcp_cache_lookup g h = Some c →
  ∃ e, e ∈ tcp_cache g ∧ descriptor_hash e = h ∧ validation_result e = c.
Proof.
  unfold tcp_cache_lookup. intros (e & He & Hh)%cache_scan_Some.
  exists e. split; [|done].
  apply elem_of_take in He as (i & Hi & _). by eapply list_elem_of_lookup_2.
Qed.

Lemma denies_validate api clk d' g f :
  wf g → denies f g →
  (fingerprint api d' = f → validation_result_at_out api (tcp_ctx g) d' <= 0) →
  denies f (tcp_validate_descriptor_kernel api clk d' g).2.
Proof.
  intros Hwf Hden Hres. unfold tcp_validate_descriptor_kernel.
  destruct (tcp_cache_lookup g (fingerprint api d')) eqn:Hlk; simpl; [done|].
  intros e [-> | He]%elem_of_insert_inv; [|by apply Hden].
  simpl. intros Hf. specialize (Hres Hf).
  destruct (Z.gtb_spec (validation_result_at_out api (tcp_ctx g) d') 0); [lia|done].
Qed.

Lemma denies_run api calls : ∀ g d,
  wf g → denies (fingerprint api d) g →
  validation_result_at_out api (tcp_ctx g) d <= 0 →
  Forall (λ call : clock * list byte,
            fingerprint api call.2 = fingerprint api d → call.2 = d) calls →
  wf (run api calls g) ∧ denies (fingerprint api d) (run api calls g).
Proof.
  induction calls as [|[clk d'] calls IH]; intros g d Hwf Hden Hres Hcalls; [done|].
  apply Forall_cons in Hcalls as [Hd' Hcalls]. simpl in Hd'.
  change (run api ((clk, d') :: calls) g)
    with (run api calls (tcp_validate_descriptor_kernel api clk d' g).2).
  apply IH; [by apply wf_validate | | | done].
  - apply denies_validate; [done..|]. intros ->%Hd'. done.
  - by rewrite (validation_result_ctx api _ (tcp_ctx g)).
Qed.

(** C10 (as amended). In every reachable state each cached decision byte is 0 or 1, so a
    validation answered from the cache returns 0 or 1, never an error code.
    A buffer whose validation missed the cache and returned an error is
    answered with 0 by the next validation, and by any later validation that
    hits the cache, as long as no other buffer with the same fingerprint was
    validated in between. *)
Theorem cached_decision_is_boolean api g :
  reachable api g →
  Forall (λ e, validation_result e = 0 ∨ validation_result e = 1) (tcp_cache g)
  ∧ (∀ clk d c,
       tcp_cache_lookup g (fingerprint api d) = Some c →
       (tcp_validate_descriptor_kernel api clk d g).1 = c ∧ (c = 0 ∨ c = 1))
  ∧ (∀ clk (d : list byte) calls clk',
       tcp_cache_lookup g (fingerprint api d) = None →
       (tcp_validate_descriptor_kernel api clk d g).1 <= 0 →
       Forall (λ call : clock * list byte,
                 fingerprint api call.2 = fingerprint api d → call.2 = d) calls →
       let g1 := (tcp_validate_descriptor_kernel api clk d g).2 in
       let g2 := run api calls g1 in
       (tcp_validate_descriptor_kernel api clk' d g1).1 = 0
       ∧ (is_Some (tcp_cache_lookup g2 (fingerprint api d)) →
          (tcp_validate_descriptor_kernel api clk' d g2).1 = 0)).
Proof.
  intros Hreach. pose proof (wf_reachable _ _ Hreach) as Hwf.
  pose proof (boolean_cache_reachable _ _ Hreach) as Hbool.
  split; [exact Hbool | split].
  - intros clk d c Hhit. rewrite (validate_hit _ _ _ _ _ Hhit). split; [done|].
    apply lookup_elem in Hhit as (e & He & _ & <-).
    rewrite Forall_forall in Hbool. by apply Hbool.
  - intros clk d calls clk' Hmiss Herr Hcalls g1 g2.
    assert (Hres : validation_result_at_out api (tcp_ctx g) d <= 0).
    { by rewrite (validate_miss _ _ _ _ Hmiss) in Herr. }
    assert (Hwf1 : wf g1) by by apply wf_validate.
    assert (Hden1 : denies (fingerprint api d) g1).
    { apply denies_validate; [done| |done].
      intros e He Hh. exfalso.
      rewrite lookup_wf in Hmiss by done.
      by apply (proj1 (cache_scan_None _ _) Hmiss e). }
    assert (Hhit1 : tcp_cache_lookup g1 (fingerprint api d) = Some 0).
    { unfold g1. rewrite (validate_miss _ _ _ _ Hmiss). cbv zeta. cbn [snd].
      rewrite lookup_with_ctx, lookup_store_fresh by done.
      destruct (Z.gtb_spec (validation_result_at_out api (tcp_ctx g) d) 0);
        [lia | done]. }
    split.
    + by rewrite (validate_hit _ _ _ _ _ Hhit1).
    + intros [c Hhit2]. rewrite (validate_hit _ _ _ _ _ Hhit2). simpl.
      destruct (denies_run api calls g1 d) as [_ Hden2]; [done..| |done|].
      { by rewrite (validation_result_ctx api _ (tcp_ctx g)). }
      apply lookup_elem in Hhit2 as (e & He & Hh & <-).
      by apply Hden2.
Qed.

Lemma cached_decision_is_boolean_witness :
  let g1 := (tcp_validate_descriptor_kernel fallback_api clock0 short_buffer
               (tcp_kernel_init 0)).2 in
  let g2 := run fallback_api [(clock0, classical_flag2); (clock0, short_buffer)] g1 in
  (tcp_validate_descriptor_kernel fallback_api clock0 short_buffer g2).1 = 0.
Proof.
  refine (proj2 (proj2 (proj2 (cached_decision_is_boolean fallback_api
                                 (tcp_kernel_init 0) (reachable_init fallback_api 0)))
                   clock0 short_buffer
                   [(clock0, classical_flag2); (clock0, short_buffer)] clock0 _ _ _) _).
  - vm_compute. reflexivity.
  - vm_compute. congruence.
  - repeat constructor. intros H. vm_compute in H. discriminate H.
  - vm_compute. by eexists.
Defined.


(** ** The ring *)

Lemma cache_size_pos : 0 < TCP_CACHE_SIZE < 2 ^ 32.
Proof. unfold TCP_CACHE_SIZE. lia. Qed.

Lemma store_entry_self g e :
  0 <= validation_result e < 256 →
  store_entry g e =
    {| tcp_ctx := tcp_ctx g;
       tcp_cache := <[Z.to_nat (tcp_cache_head g) := e]> (tcp_cache g);
       tcp_cache_head := u32 (tcp_cache_head g + 1) mod TCP_CACHE_SIZE |}.
Proof.
  intros Hr. unfold store_entry, tcp_cache_store. rewrite u8_small by done.
  by destruct e.
Qed.

(** Storing into a cache whose used slots are [pre] and whose other [m]
    slots are still zeroed fills the zeroed slots in order. *)
Lemma store_all_fill ctx entries : ∀ pre m,
  Forall (λ e, 0 <= validation_result e < 256) entries →
  Z.of_nat (length pre + m) = TCP_CACHE_SIZE →
  (length entries ≤ m)%nat →
  store_all entries
    {| tcp_ctx := ctx;
       tcp_cache := pre ++ replicate m zero_entry;
       tcp_cache_head := Z.of_nat (length pre) mod TCP_CACHE_SIZE |}
  = {| tcp_ctx := ctx;
       tcp_cache := pre ++ entries ++ replicate (m - length entries) zero_entry;
       tcp_cache_head :=
         Z.of_nat (length pre + length entries) mod TCP_CACHE_SIZE |}.
Proof.
  pose proof cache_size_pos as HN.
  induction entries as [|e entries IH]; intros pre m Hbytes Hsize Hroom.
  - simpl. by rewrite Nat.sub_0_r, Nat.add_0_r.
  - apply Forall_cons in Hbytes as [He Hbytes]. simpl in Hroom.
    destruct m as [|m]; [lia|].
    change (store_all (e :: entries) ?g) with (store_all entries (store_entry g e)).
    rewrite store_entry_self by done. cbn [tcp_ctx tcp_cache tcp_cache_head].
    rewrite (Z.mod_small (Z.of_nat (length pre))) by lia.
    rewrite Nat2Z.id.
    replace (length pre) with (length pre + 0)%nat at 1 by lia.
    rewrite insert_app_r. cbn [replicate]. simpl (<[0%nat:=e]> _).
    replace (u32 (Z.of_nat (length pre) + 1) mod TCP_CACHE_SIZE)
      with (Z.of_nat (length (pre ++ [e])) mod TCP_CACHE_SIZE).
    2:{ rewrite length_app. simpl. unfold u32, wrap.
        rewrite (Z.mod_small (_ + 1)) by lia. f_equal. lia. }
    replace (pre ++ e :: replicate m zero_entry)
      with ((pre ++ [e]) ++ replicate m zero_entry) by by rewrite <- app_assoc.
    rewrite IH; [|done| rewrite length_app; simpl; lia | lia].
    rewrite <- app_assoc, length_app. simpl.
    do 2 f_equal. lia.
Qed.

(** After [TCP_CACHE_SIZE] stores into the fresh cache the slots are the
    stored entries in order and the head is back at 0. *)
Lemma store_all_full features entries :
  Forall (λ e, 0 <= validation_result e < 256) entries →
  length entries = Z.to_nat TCP_CACHE_SIZE →
  store_all entries (tcp_kernel_init features)
  = {| tcp_ctx := tcp_ctx (tcp_kernel_init features);
       tcp_cache := entries;
       tcp_cache_head := 0 |}.
Proof.
  pose proof cache_size_pos as HN. intros Hbytes Hlen.
  change (tcp_kernel_init features)
    with {| tcp_ctx := tcp_ctx (tcp_kernel_init features);
            tcp_cache := [] ++ replicate (Z.to_nat TCP_CACHE_SIZE) zero_entry;
            tcp_cache_head := Z.of_nat (length (@nil tcp_cache_entry))
                              mod TCP_CACHE_SIZE |} at 1.
  rewrite store_all_fill; [|done | simpl; lia | lia].
  cbn [length app Nat.add].
  rewrite Hlen, Nat.sub_diag, app_nil_r, Z2Nat.id, Z.mod_same by lia. done.
Qed.

Lemma store_all_snoc entries e g :
  store_all (entries ++ [e]) g = store_entry (store_all entries g) e.
Proof. unfold store_all. by rewrite fold_left_app. Qed.

(** C8. A store on well-formed globals writes the slot under the head,
    leaves the other slots alone and advances the head modulo
    [TCP_CACHE_SIZE].  After [TCP_CACHE_SIZE + 1] stores of entries with
    distinct fingerprints into the fresh cache, looking up the first
    fingerprint misses and looking up any of the other [TCP_CACHE_SIZE]
    returns the decision stored with it. *)
Theorem ring_evicts_oldest :
  (∀ g h result now, wf g →
     let g' := tcp_cache_store g h result now in
     tcp_cache g' !! Z.to_nat (tcp_cache_head g)
       = Some {| descriptor_hash := h; validation_result := u8 result;
                 timestamp := now |}
     ∧ (∀ j, j ≠ Z.to_nat (tcp_cache_head g) → tcp_cache g' !! j = tcp_cache g !! j)
     ∧ length (tcp_cache g') = Z.to_nat TCP_CACHE_SIZE
     ∧ tcp_cache_head g' = (tcp_cache_head g + 1) mod TCP_CACHE_SIZE)
  ∧ (∀ features first rest,
       length rest = Z.to_nat TCP_CACHE_SIZE →
       NoDup (descriptor_hash <$> first :: rest) →
       Forall (λ e, 0 <= validation_result e < 256) (first :: rest) →
       let g := store_all (first :: rest) (tcp_kernel_init features) in
       tcp_cache_lookup g (descriptor_hash first) = None
       ∧ Forall (λ e, tcp_cache_lookup g (descriptor_hash e)
                      = Some (validation_result e)) rest).
Proof.
  pose proof cache_size_pos as HN. split.
  - intros g h result now [Hlen Hhead] g'. unfold g', tcp_cache_store; simpl.
    split; [|split; [|split]].
    + apply list_lookup_insert_eq. lia.
    + intros j Hj. by apply list_lookup_insert_ne.
    + by rewrite length_insert.
    + by destruct (next_head _ Hhead) as [-> _].
  - intros features first rest Hlen Hnd Hbytes g.
    assert (∃ body last, rest = body ++ [last]) as (body & last & ->).
    { destruct rest as [|x rest _] using rev_ind; [simpl in Hlen; lia | eauto]. }
    assert (Hg : tcp_cache g = last :: body ∧ wf g).
    { unfold g. rewrite app_comm_cons, store_all_snoc.
      apply Forall_cons in Hbytes as [Hfirst Hbytes].
      apply Forall_app in Hbytes as [Hbody Hlast].
      apply (proj1 (Forall_singleton _ _)) in Hlast.
      rewrite length_app in Hlen. cbn [length] in Hlen. cbv beta in Hlast.
      rewrite store_all_full; [| by apply Forall_cons | cbn [length]; lia].
      rewrite store_entry_self by done. cbn [tcp_cache tcp_cache_head].
      split; [done|]. split; cbn [tcp_cache tcp_cache_head].
      - rewrite length_insert. cbn [length]. lia.
      - apply Z.mod_pos_bound. lia. }
    destruct Hg as [Hcache Hwf].
    rewrite fmap_cons in Hnd.
    apply NoDup_cons in Hnd as [Hfirst Hnd].
    split.
    + rewrite lookup_wf, Hcache by done. apply cache_scan_None.
      intros e He Hh. apply Hfirst. rewrite <- Hh.
      apply list_elem_of_fmap_2.
      apply elem_of_cons in He as [->|He]; apply elem_of_app; [right|left];
        [by apply list_elem_of_singleton | done].
    + apply Forall_forall. intros e He.
      rewrite lookup_wf, Hcache by done. apply cache_scan_NoDup.
      * rewrite fmap_app in Hnd. rewrite fmap_cons.
        apply NoDup_app in Hnd as (Hbody & Hdisj & _).
        apply NoDup_cons. split; [|done].
        intros Hin. apply (Hdisj _ Hin). by apply list_elem_of_singleton.
      * apply elem_of_app in He as [He | ->%list_elem_of_singleton];
          [by right | by left].
Qed.

Lemma byte_val_nth_byte n : byte_val (nth_byte n) = n mod 256.
Proof.
  pose proof (Z.mod_pos_bound n 256) as Hn.
  unfold byte_val, nth_byte.
  destruct (Byte.of_N (Z.to_N (n mod 256))) as [b|] eqn:E; simpl.
  - apply Byte.to_of_N in E. rewrite E. lia.
  - apply Byte.of_N_None_iff in E. lia.
Qed.

Lemma hash_number_numbered n : 0 <= n < 65536 → hash_number (numbered_hash n) = n.
Proof.
  intros Hn. unfold hash_number, numbered_hash, u8_at. cbn [app lookup list_lookup].
  rewrite !byte_val_nth_byte.
  rewrite (Z.mod_small (n / 256)) by (split; [apply Z.div_pos | apply Z.div_lt_upper_bound]; lia).
  pose proof (Z.div_mod n 256). lia.
Qed.

Lemma numbered_entries_cons :
  numbered_entry 0 :: (numbered_entry <$> seqZ 1 TCP_CACHE_SIZE)
  = numbered_entry <$> seqZ 0 (TCP_CACHE_SIZE + 1).
Proof.
  pose proof cache_size_pos as HN.
  rewrite (seqZ_cons 0 (TCP_CACHE_SIZE + 1)) by lia. rewrite fmap_cons.
  by replace (Z.pred (TCP_CACHE_SIZE + 1)) with TCP_CACHE_SIZE by lia.
Qed.

Lemma ring_evicts_oldest_witness :
  let g := store_all (numbered_entry 0 :: (numbered_entry <$> seqZ 1 TCP_CACHE_SIZE))
                     (tcp_kernel_init 0) in
  tcp_cache_lookup g (descriptor_hash (numbered_entry 0)) = None
  ∧ Forall (λ e, tcp_cache_lookup g (descriptor_hash e) = Some (validation_result e))
           (numbered_entry <$> seqZ 1 TCP_CACHE_SIZE).
Proof.
  refine (proj2 ring_evicts_oldest 0 (numbered_entry 0)
            (numbered_entry <$> seqZ 1 TCP_CACHE_SIZE) _ _ _).
  - rewrite length_fmap. apply length_seqZ.
  - rewrite numbered_entries_cons, <- list_fmap_compose.
    apply NoDup_fmap_2_strong; [|apply NoDup_seqZ].
    pose proof cache_size_pos as HN. unfold TCP_CACHE_SIZE in *.
    intros x y Hx%elem_of_seqZ Hy%elem_of_seqZ Hxy.
    apply (f_equal hash_number) in Hxy. simpl in Hxy.
    rewrite !hash_number_numbered in Hxy by lia. done.
  - rewrite numbered_entries_cons.
    apply Forall_fmap, Forall_forall. intros n _.
    unfold numbered_entry, compose; cbn [validation_result].
    pose proof (Z.mod_pos_bound n 2). lia.
Defined.


(** ** Hardware detection *)

(** X11. The detected feature word is a byte; the LSM, eBPF and PMU bits
    are always set, and each other bit is set exactly when the host has the
    feature, CET standing for shadow stacks or indirect-branch tracking. *)
Theorem detected_features_decode h :
  let features := tcp_detect_hardware_features h in
  0 <= features < 256
  ∧ Z.testbit features 0 = true
  ∧ Z.testbit features 1 = true
  ∧ Z.testbit features 2 = true
  ∧ Z.testbit features 3 = tpm_chip_found h
  ∧ Z.testbit features 4 = X86_FEATURE_SGX h
  ∧ Z.testbit features 5 = X86_FEATURE_SHSTK h || X86_FEATURE_IBT h
  ∧ Z.testbit features 6 = X86_FEATURE_INTEL_PT h
  ∧ Z.testbit features 7 = X86_FEATURE_PKU h.
Proof.
  destruct h as [[] [] [] [] [] []]; vm_compute; repeat split; congruence.
Qed.

(** ** The checksum *)

Lemma land_ffff x : Z.land x 0xFFFF = x mod 2 ^ 16.
Proof. change 0xFFFF with (Z.ones 16). by rewrite Z.land_ones. Qed.

Lemma byte_sum_from acc data :
  0 <= acc < 2 ^ 32 →
  fold_left (fun crc b => u32 (crc + byte_val b)) data acc
  = (acc + bytes_total data) mod 2 ^ 32.
Proof.
  revert acc. induction data as [|b data IH]; intros acc Hacc; simpl.
  - rewrite Z.add_0_r. by rewrite Z.mod_small.
  - rewrite IH by (unfold u32, wrap; apply Z.mod_pos_bound; lia).
    unfold u32, wrap. rewrite Z.add_mod_idemp_l by lia. f_equal. lia.
Qed.

Lemma bytes_total_perm l l' : l ≡ₚ l' → bytes_total l = bytes_total l'.
Proof.
  induction 1; simpl; lia.
Qed.

(** X12. The checksum is a 16-bit value for every behaviour of the crypto
    API.  When the crc32 transform cannot be allocated it is the sum of the
    first [len] bytes modulo 2^16, so it does not see the order of the
    bytes: any rearrangement of the checksummed bytes has the same
    checksum. *)
Theorem checksum_fallback_is_byte_sum api (data : list byte) len :
  0 <= tcp_hardware_crc16 api data len < 2 ^ 16
  ∧ (crc32_tfm api = None →
       tcp_hardware_crc16 api data len = bytes_total (take len data) mod 2 ^ 16
       ∧ ∀ data' : list byte,
           take len data ≡ₚ take len data' →
           tcp_hardware_crc16 api data' len = tcp_hardware_crc16 api data len).
Proof.
  assert (Hsum : ∀ d : list byte, crc32_tfm api = None →
            tcp_hardware_crc16 api d len = bytes_total (take len d) mod 2 ^ 16).
  { intros d Hnone. unfold tcp_hardware_crc16, byte_sum. rewrite Hnone.
    rewrite byte_sum_from by lia. rewrite land_ffff, Z.add_0_l.
    change (2 ^ 32) with (2 ^ 16 * 2 ^ 16).
    rewrite Z.rem_mul_r by lia.
    rewrite Z.mul_comm, Z_mod_plus_full. by rewrite Z.mod_mod by lia. }
  split.
  - unfold tcp_hardware_crc16.
    destruct (crc32_tfm api) as [digest|].
    + destruct (digest (take len data)); [|lia].
      rewrite land_ffff. apply Z.mod_pos_bound. lia.
    + rewrite land_ffff. apply Z.mod_pos_bound. lia.
  - intros Hnone. split; [by apply Hsum|].
    intros data' Hperm. rewrite !Hsum by done.
    by rewrite (bytes_total_perm _ _ Hperm).
Qed.

Lemma checksum_fallback_is_byte_sum_witness :
  tcp_hardware_crc16 fallback_api [x02; x01; x03] 3
  = tcp_hardware_crc16 fallback_api [x01; x02; x03] 3.
Proof.
  apply (proj2 (proj2 (checksum_fallback_is_byte_sum fallback_api [x01; x02; x03] 3)
                  eq_refl)).
  apply perm_swap.
Defined.

(** ** The verdict of a validation that misses the cache *)

(** X13. On a cache miss the result is 1, [-EACCES] or [-EINVAL].  It is
    1 exactly for a 24-byte buffer with the Classical magic, a matching
    checksum and the lowest flag bit clear, or a 32-byte buffer with the
    Quantum magic and version at least 3.  It is [-EACCES] exactly for a
    24-byte buffer with the Classical magic, a matching checksum and the
    lowest flag bit set: no 32-byte buffer is ever refused by a gate, and the
    eBPF, SGX and TPM gates refuse nothing. *)
Theorem verdict_on_miss api clk (d : list byte) g :
  tcp_cache_lookup g (fingerprint api d) = None →
  let result := (tcp_validate_descriptor_kernel api clk d g).1 in
  let classical_ok :=
    length d = 24%nat ∧ classical.magic d = TCP_MAGIC_CLASSICAL
    ∧ tcp_hardware_crc16 api d 22 = classical.checksum d in
  (result = 1 ∨ result = - EACCES ∨ result = - EINVAL)
  ∧ (result = 1 ↔
       (classical_ok ∧ Z.land (classical.security_flags d) 1 = 0)
       ∨ (length d = 32%nat ∧ quantum.magic d = TCP_MAGIC_QUANTUM
          ∧ 3 <= quantum.version d))
  ∧ (result = - EACCES ↔
       classical_ok ∧ Z.land (classical.security_flags d) 1 ≠ 0).
Proof.
  intros Hmiss result classical_ok. unfold result, classical_ok.
  rewrite validate_miss by done. cbv zeta. cbn [fst].
  unfold validation_result_at_out, format_check. rewrite gate_checks_eq.
  unfold tcp_lsm_security_check, tcp_ebpf_security_check, nonzero, EACCES, EINVAL.
  destruct (Nat.eqb_spec (length d) 24) as [H24|H24];
    [rewrite H24; change (24 =? 32)%nat with false
    |destruct (Nat.eqb_spec (length d) 32) as [H32|H32]; [rewrite H32|]];
    cbn [orb Nat.eqb andb];
    try destruct (Z.eqb_spec (classical.magic d) TCP_MAGIC_CLASSICAL) as [Hm|Hm];
    try destruct (Z.eqb_spec (quantum.magic d) TCP_MAGIC_QUANTUM) as [Hq|Hq];
    cbn [negb]; cbv iota;
    try destruct (Z.eqb_spec (tcp_hardware_crc16 api d 22) (classical.checksum d))
      as [Hc|Hc];
    try destruct (Z.ltb_spec (quantum.version d) 3) as [Hv|Hv];
    cbn [negb]; cbv iota;
    try destruct (Z.eqb_spec (Z.land (classical.security_flags d) 1) 0) as [Hf|Hf];
    simpl; intuition (lia || congruence).
Qed.

Lemma verdict_on_miss_witness :
  (tcp_validate_descriptor_kernel fallback_api clock0 classical_flag2
     (tcp_kernel_init 0)).1 = 1.
Proof.
  apply (proj1 (proj2 (verdict_on_miss fallback_api clock0 classical_flag2
                         (tcp_kernel_init 0) ltac:(vm_compute; reflexivity)))).
  left. vm_compute. repeat split; congruence.
Defined.

(** ** Fingerprints *)

Lemma cache_size_succ : ∃ n, Z.to_nat TCP_CACHE_SIZE = S n.
Proof.
  destruct (Z.to_nat TCP_CACHE_SIZE) as [|n] eqn:E; [|by exists n].
  unfold TCP_CACHE_SIZE in E. lia.
Qed.

Lemma fresh_cache_holds_zero features :
  tcp_cache_lookup (tcp_kernel_init features) (replicate 8 x00) = Some 0.
Proof.
  unfold tcp_cache_lookup, tcp_kernel_init. cbn [tcp_cache].
  destruct cache_size_succ as [n ->]. reflexivity.
Qed.

Lemma all_zero_replicate (l : list byte) :
  Forall (λ b, b = x00) l → l = replicate (length l) x00.
Proof.
  induction 1 as [|b l -> _ IH]; [done|]. simpl. by rewrite <- IH.
Qed.

Lemma fallback_fingerprint api (d : list byte) :
  sha256_tfm api = None →
  fingerprint api d = take 8 d ++ replicate (8 - length (take 8 d)) x00.
Proof.
  intros Hnone. unfold fingerprint. rewrite Hnone. cbv zeta.
  rewrite length_take.
  destruct (Nat.le_ge_cases (length d) 8) as [Hle|Hge].
  - rewrite (Nat.min_l (length d) 8), (Nat.min_r 8 (length d)) by done.
    by rewrite !take_ge by lia.
  - by rewrite (Nat.min_r (length d) 8), (Nat.min_l 8 (length d)) by done.
Qed.

(** X14. The zeroed slots of the fresh cache match the all-zero
    fingerprint: a buffer with that fingerprint, validated first after
    initialisation, is answered 0 as a cache hit without being validated,
    and counts as a hit and not as a validation.  When the SHA-256 transform
    is unavailable this is so for the empty buffer and for every buffer
    whose first eight bytes are zero. *)
Theorem zero_fingerprint_hits_fresh_cache api clk (d : list byte) features :
  (fingerprint api d = replicate 8 x00 →
     let '(result, g) := tcp_validate_descriptor_kernel api clk d
                           (tcp_kernel_init features) in
     result = 0
     ∧ cache_hits (tcp_ctx g) = 1
     ∧ validation_count (tcp_ctx g) = 0
     ∧ security_violations (tcp_ctx g) = 0
     ∧ tcp_cache g = tcp_cache (tcp_kernel_init features))
  ∧ (sha256_tfm api = None → Forall (λ b, b = x00) (take 8 d) →
       fingerprint api d = replicate 8 x00).
Proof.
  split.
  - intros Hfp.
    rewrite (validate_hit api clk d (tcp_kernel_init features) 0)
      by (rewrite Hfp; apply fresh_cache_holds_zero).
    done.
  - intros Hnone Hzero. rewrite fallback_fingerprint by done.
    rewrite (all_zero_replicate _ Hzero) at 1.
    rewrite <- replicate_add. f_equal.
    rewrite length_take. lia.
Qed.

Lemma zero_fingerprint_hits_fresh_cache_witness :
  (tcp_validate_descriptor_kernel fallback_api clock0 [] (tcp_kernel_init 0)).1 = 0.
Proof.
  pose proof (zero_fingerprint_hits_fresh_cache fallback_api clock0 [] 0) as [H Hfp].
  specialize (H (Hfp eq_refl ltac:(constructor))).
  destruct (tcp_validate_descriptor_kernel fallback_api clock0 [] (tcp_kernel_init 0))
    as [result g].
  apply H.
Defined.

(** X15. When the SHA-256 transform is unavailable the fingerprint is the
    first eight bytes of the buffer, so two buffers of at least eight bytes
    that agree there share one cache entry: after a validation of the first
    that missed the cache, the second is answered with the first one's
    allow-or-deny byte, whatever the second contains. *)
Theorem fallback_fingerprint_collision api clk clk' (d d' : list byte) g :
  sha256_tfm api = None →
  (8 ≤ length d)%nat → (8 ≤ length d')%nat →
  take 8 d = take 8 d' →
  wf g →
  tcp_cache_lookup g (fingerprint api d) = None →
  fingerprint api d' = fingerprint api d
  ∧ let '(r1, g1) := tcp_validate_descriptor_kernel api clk d g in
    (tcp_validate_descriptor_kernel api clk' d' g1).1 = (if r1 >? 0 then 1 else 0).
Proof.
  intros Hnone Hlen Hlen' Htake Hwf Hmiss.
  assert (Hfp : fingerprint api d' = fingerprint api d).
  { rewrite !fallback_fingerprint by done. by rewrite Htake. }
  split; [done|].
  destruct (tcp_validate_descriptor_kernel api clk d g) as [r1 g1] eqn:E1.
  rewrite (validate_miss api clk d g Hmiss) in E1. cbv zeta in E1.
  injection E1 as Hr1 Hg1.
  rewrite (validate_hit api clk' d' g1 (if r1 >? 0 then 1 else 0)); [done|].
  rewrite Hfp, <- Hg1, lookup_with_ctx, lookup_store_fresh by done.
  by rewrite stored_byte_bool, Hr1.
Qed.

Lemma fallback_fingerprint_collision_witness :
  let g1 := (tcp_validate_descriptor_kernel fallback_api clock0 classical_bad_checksum
               (tcp_kernel_init 0)).2 in
  (tcp_validate_descriptor_kernel fallback_api clock0 classical_flag2
     (tcp_kernel_init 0)).1 = 1
  ∧ (tcp_validate_descriptor_kernel fallback_api clock0 classical_flag2 g1).1 = 0.
Proof.
  split; [vm_compute; reflexivity|].
  pose proof (fallback_fingerprint_collision fallback_api clock0 clock0
                classical_bad_checksum classical_flag2 (tcp_kernel_init 0)
                eq_refl ltac:(vm_compute; lia) ltac:(vm_compute; lia) eq_refl
                (wf_init 0) ltac:(vm_compute; reflexivity)) as [_ H].
  destruct (tcp_validate_descriptor_kernel fallback_api clock0 classical_bad_checksum
              (tcp_kernel_init 0)) as [r1 g1] eqn:E.
  cbn [snd]. rewrite H.
  assert (r1 = - EINVAL) as ->; [|reflexivity].
  apply (f_equal fst) in E. cbn [fst] in E. rewrite <- E. vm_compute. reflexivity.
Defined.

(** ** Invariants of the loaded module *)

(** X16. In every state the loaded module can reach, the cache still has
    [TCP_CACHE_SIZE] slots and the ring head indexes one of them, so a store
    never writes outside the array. *)
Theorem store_index_in_bounds api g :
  reachable api g →
  length (tcp_cache g) = Z.to_nat TCP_CACHE_SIZE
  ∧ 0 <= tcp_cache_head g < TCP_CACHE_SIZE
  ∧ is_Some (tcp_cache g !! Z.to_nat (tcp_cache_head g)).
Proof.
  intros [Hlen Hhead]%wf_reachable. split; [done|]. split; [done|].
  apply lookup_lt_is_Some. lia.
Qed.

Lemma store_index_in_bounds_witness :
  is_Some (tcp_cache (tcp_kernel_init 0) !! Z.to_nat (tcp_cache_head (tcp_kernel_init 0))).
Proof.
  apply (store_index_in_bounds fallback_api (tcp_kernel_init 0)). constructor.
Defined.

Lemma distinct_fingerprints_validate api clk d g :
  wf g → distinct_fingerprints g →
  distinct_fingerprints (tcp_validate_descriptor_kernel api clk d g).2.
Proof.
  intros Hwf Hdist. unfold tcp_validate_descriptor_kernel.
  destruct (tcp_cache_lookup g (fingerprint api d)) eqn:Hmiss; [done|].
  rewrite lookup_wf in Hmiss by done.
  pose proof (proj1 (cache_scan_None _ _) Hmiss) as Hfresh.
  cbn [snd]. unfold distinct_fingerprints, with_ctx, tcp_cache_store.
  cbn [tcp_cache].
  intros i j e e' Hij Hi Hj Hh.
  apply list_lookup_insert_Some in Hi as [(<- & <- & _) | [Hi' Hi]];
    apply list_lookup_insert_Some in Hj as [(<- & <- & _) | [Hj' Hj]].
  - done.
  - exfalso. apply (Hfresh e'); [by eapply list_elem_of_lookup_2 | done].
  - exfalso. apply (Hfresh e); [by eapply list_elem_of_lookup_2 | done].
  - by apply (Hdist i j).
Qed.

Lemma distinct_fingerprints_init features :
  distinct_fingerprints (tcp_kernel_init features).
Proof.
  unfold distinct_fingerprints, tcp_kernel_init. cbn [tcp_cache].
  intros i j e e' _ [-> _]%lookup_replicate [-> _]%lookup_replicate _. done.
Qed.

Lemma distinct_fingerprints_run api calls : ∀ g,
  wf g → distinct_fingerprints g →
  wf (run api calls g) ∧ distinct_fingerprints (run api calls g).
Proof.
  induction calls as [|[clk d] calls IH]; intros g Hwf Hdist; [done|].
  change (run api ((clk, d) :: calls) g)
    with (run api calls (tcp_validate_descriptor_kernel api clk d g).2).
  apply IH; [by apply wf_validate | by apply distinct_fingerprints_validate].
Qed.

(** X17. After any sequence of validations that run one after another on
    the freshly initialised module, each call finishing before the next one
    starts, two different slots carry the same fingerprint only if both are
    untouched zeroed slots: a fingerprint that was stored is in one slot
    only. *)
Theorem stored_fingerprints_are_unique api calls features :
  let g := run api calls (tcp_kernel_init features) in
  ∀ i j e e',
    i ≠ j → tcp_cache g !! i = Some e → tcp_cache g !! j = Some e' →
    descriptor_hash e = descriptor_hash e' → e = zero_entry ∧ e' = zero_entry.
Proof.
  apply distinct_fingerprints_run; [apply wf_init | apply distinct_fingerprints_init].
Qed.

Lemma stored_fingerprints_are_unique_witness :
  let g := run fallback_api [(clock0, short_buffer)] (tcp_kernel_init 0) in
  default zero_entry (tcp_cache g !! 1%nat) = zero_entry
  ∧ default zero_entry (tcp_cache g !! 2%nat) = zero_entry.
Proof.
  intros g.
  destruct (tcp_cache g !! 1%nat) as [e|] eqn:H1; [|by vm_compute in H1].
  destruct (tcp_cache g !! 2%nat) as [e'|] eqn:H2; [|by vm_compute in H2].
  apply (stored_fingerprints_are_unique fallback_api [(clock0, short_buffer)] 0
           1%nat 2%nat e e' ltac:(lia) H1 H2).
  vm_compute in H1, H2. by injection H1 as <-; injection H2 as <-.
Defined.

Lemma cache_scan_app l1 l2 h :
  cache_scan (l1 ++ l2) h =
    match cache_scan l1 h with Some c => Some c | None => cache_scan l2 h end.
Proof.
  induction l1 as [|e l1 IH]; simpl; [done|].
  by destruct (hash_eqb (descriptor_hash e) h).
Qed.

(** X18. A store of the fingerprint [h'] changes the lookup of another
    fingerprint [h] only by evicting it: if the slot under the head does not
    carry [h] the lookup of [h] is unchanged, and if it is the only slot
    that carries [h] the lookup of [h] misses afterwards. *)
Theorem store_keeps_other_fingerprints g h h' result now old :
  wf g →
  tcp_cache g !! Z.to_nat (tcp_cache_head g) = Some old →
  h' ≠ h →
  let g' := tcp_cache_store g h' result now in
  (descriptor_hash old ≠ h → tcp_cache_lookup g' h = tcp_cache_lookup g h)
  ∧ ((∀ j e, j ≠ Z.to_nat (tcp_cache_head g) → tcp_cache g !! j = Some e →
        descriptor_hash e ≠ h) →
     tcp_cache_lookup g' h = None).
Proof.
  intros Hwf Hold Hne g'. unfold g'.
  rewrite !lookup_wf by (done || by apply wf_store).
  unfold tcp_cache_store. cbn [tcp_cache].
  pose proof (lookup_lt_Some _ _ _ Hold) as Hlt.
  split.
  - intros Hother.
    rewrite <- (take_drop_middle _ _ _ Hold).
    rewrite insert_app_r_alt by (rewrite length_take; lia).
    rewrite length_take, Nat.min_l, Nat.sub_diag by lia. cbn [insert list_insert].
    rewrite !cache_scan_app. cbn [cache_scan descriptor_hash].
    by rewrite !hash_eqb_ne by done.
  - intros Honly. apply cache_scan_None.
    intros e [j Hj]%list_elem_of_lookup.
    apply list_lookup_insert_Some in Hj as [(_ & <- & _) | [Hjne Hj]]; [done|].
    by apply (Honly j e).
Qed.

Lemma store_keeps_other_fingerprints_witness :
  let g := (tcp_validate_descriptor_kernel fallback_api clock0 short_buffer
              (tcp_kernel_init 0)).2 in
  tcp_cache_lookup (tcp_cache_store g (numbered_hash 7) 1 0)
                   (fingerprint fallback_api short_buffer)
  = tcp_cache_lookup g (fingerprint fallback_api short_buffer).
Proof.
  intros g.
  refine (proj1 (store_keeps_other_fingerprints g (fingerprint fallback_api short_buffer)
                   (numbered_hash 7) 1 0 zero_entry _ _ _) _).
  - apply wf_validate, wf_init.
  - vm_compute. reflexivity.
  - vm_compute. congruence.
  - vm_compute. congruence.
Defined.

(** ** Counters *)

Lemma run_cons api call calls g :
  run api (call :: calls) g
  = run api calls (tcp_validate_descriptor_kernel api call.1 call.2 g).2.
Proof. reflexivity. Qed.

Lemma accounted_validate api clk d g n :
  0 <= n < 2 ^ 64 - 1 →
  accounted n g →
  let g' := (tcp_validate_descriptor_kernel api clk d g).2 in
  accounted (n + 1) g'
  ∧ hardware_features (tcp_ctx g') = hardware_features (tcp_ctx g)
  ∧ security_level (tcp_ctx g') = security_level (tcp_ctx g).
Proof.
  pose proof cache_size_pos as HN.
  intros Hn (Hsum & Hhits & Hviol & Hhead). unfold tcp_validate_descriptor_kernel.
  destruct (tcp_cache_lookup g (fingerprint api d)); cbn [snd]; cbv zeta;
    unfold accounted, with_ctx, count_cache_hit, count_validation, tcp_cache_store;
    cbn [tcp_ctx tcp_cache_head validation_count cache_hits security_violations
         hardware_features security_level].
  - rewrite u64_small by lia. repeat split; lia || done.
  - rewrite (u64_small (validation_count (tcp_ctx g) + 1)) by lia.
    assert (Hnext : u32 (tcp_cache_head g + 1) mod TCP_CACHE_SIZE
                    = (validation_count (tcp_ctx g) + 1) mod TCP_CACHE_SIZE).
    { pose proof (Z.mod_pos_bound (validation_count (tcp_ctx g)) TCP_CACHE_SIZE).
      unfold u32, wrap. rewrite Hhead, (Z.mod_small (_ + 1)) by lia.
      by rewrite Z.add_mod_idemp_l by lia. }
    destruct (_ <=? 0); rewrite ?u64_small by lia; repeat split; lia || done.
Qed.

Lemma accounted_run api calls : ∀ g n,
  0 <= n → n + Z.of_nat (length calls) < 2 ^ 64 →
  accounted n g →
  accounted (n + Z.of_nat (length calls)) (run api calls g)
  ∧ hardware_features (tcp_ctx (run api calls g)) = hardware_features (tcp_ctx g)
  ∧ security_level (tcp_ctx (run api calls g)) = security_level (tcp_ctx g).
Proof.
  induction calls as [|[clk d] calls IH]; intros g n Hn Hlen Hacc.
  - simpl. by rewrite Z.add_0_r.
  - rewrite run_cons. cbn [fst snd length] in *.
    destruct (accounted_validate api clk d g n ltac:(lia) Hacc) as (Hacc1 & Hhw & Hlvl).
    destruct (IH _ (n + 1) ltac:(lia) ltac:(lia) Hacc1) as (Hacc' & Hhw' & Hlvl').
    replace (n + Z.of_nat (S (length calls))) with (n + 1 + Z.of_nat (length calls))
      by lia.
    split; [done|]. split; congruence.
Qed.

(** X19. After any sequence of [n] validations on the freshly initialised
    module, every call has been counted exactly once, as a cache hit or as a
    validation; the violations are at most the validations; the ring head is
    the number of validations modulo [TCP_CACHE_SIZE]; and the feature word
    and the security level are those set at initialisation. *)
Theorem every_call_is_counted_once api calls features :
  Z.of_nat (length calls) < 2 ^ 64 →
  let g := run api calls (tcp_kernel_init features) in
  validation_count (tcp_ctx g) + cache_hits (tcp_ctx g) = Z.of_nat (length calls)
  ∧ 0 <= cache_hits (tcp_ctx g)
  ∧ 0 <= security_violations (tcp_ctx g) <= validation_count (tcp_ctx g)
  ∧ tcp_cache_head g = validation_count (tcp_ctx g) mod TCP_CACHE_SIZE
  ∧ hardware_features (tcp_ctx g) = features
  ∧ security_level (tcp_ctx g) = 1.
Proof.
  intros Hlen g.
  destruct (accounted_run api calls (tcp_kernel_init features) 0 ltac:(lia)
              ltac:(lia)) as ((Hsum & Hhits & Hviol & Hhead) & Hhw & Hlvl).
  { unfold accounted, tcp_kernel_init. cbn. repeat split; lia || done. }
  rewrite Z.add_0_l in Hsum. done.
Qed.

Lemma every_call_is_counted_once_witness :
  let g := run fallback_api [(clock0, short_buffer); (clock0, short_buffer)]
             (tcp_kernel_init 0) in
  validation_count (tcp_ctx g) + cache_hits (tcp_ctx g) = 2.
Proof.
  apply (every_call_is_counted_once fallback_api
           [(clock0, short_buffer); (clock0, short_buffer)] 0).
  vm_compute. reflexivity.
Defined.

(** X20. With at least one validation counted and [cache_hits * 100]
    within 64 bits, the report shows the integer quotients
    [total_time_ns / validation_count] and
    [cache_hits * 100 / validation_count].  As hits are not validations the
    hit rate is not capped at 100: with [m] times as many hits as
    validations it is at least [100 m]. *)
Theorem report_quotients ctx m :
  0 < validation_count ctx →
  0 <= cache_hits ctx → cache_hits ctx * 100 < 2 ^ 64 →
  tcp_proc_show ctx
  = Some {| avg_time_ns := total_time_ns ctx / validation_count ctx;
            cache_hit_rate := cache_hits ctx * 100 / validation_count ctx |}
  ∧ (m * validation_count ctx <= cache_hits ctx →
       100 * m <= cache_hits ctx * 100 / validation_count ctx).
Proof.
  intros Hcount Hhits Hfit. split.
  - unfold tcp_proc_show, udiv64.
    destruct (Z.gtb_spec (validation_count ctx) 0) as [_|?]; [|lia].
    destruct (Z.eqb_spec (validation_count ctx) 0) as [?|_]; [lia|].
    cbn. by rewrite u64_small by lia.
  - intros Hm. apply Z.div_le_lower_bound; [done|]. nia.
Qed.

Lemma report_quotients_witness :
  let g := run fallback_api
             [(clock0, short_buffer); (clock0, short_buffer); (clock0, short_buffer)]
             (tcp_kernel_init 0) in
  tcp_proc_show (tcp_ctx g) = Some {| avg_time_ns := 0; cache_hit_rate := 200 |}.
Proof.
  intros g.
  rewrite (proj1 (report_quotients (tcp_ctx g) 2 ltac:(vm_compute; reflexivity)
                    ltac:(vm_compute; congruence) ltac:(vm_compute; reflexivity))).
  vm_compute. reflexivity.
Defined.

(** X21. The answer of a validation is a function of the buffer, the
    crypto API and the cache contents alone: the security level, the
    detected hardware features, the counters, the ring head and the clock
    have no influence on it. *)
Theorem verdict_ignores_settings api clk clk' (d : list byte) g g' :
  tcp_cache g = tcp_cache g' →
  (tcp_validate_descriptor_kernel api clk d g).1
  = (tcp_validate_descriptor_kernel api clk' d g').1.
Proof.
  intros Hcache. unfold tcp_validate_descriptor_kernel, tcp_cache_lookup.
  rewrite Hcache.
  destruct (cache_scan _ _); cbn [fst]; [done|].
  apply validation_result_ctx.
Qed.

Lemma verdict_ignores_settings_witness :
  (tcp_validate_descriptor_kernel fallback_api clock0 classical_flag2
     (set_security_level 6 (tcp_kernel_init 0))).1
  = (tcp_validate_descriptor_kernel fallback_api clock0 classical_flag2
       (tcp_kernel_init (tcp_detect_hardware_features sgx_tpm_host))).1.
Proof. apply verdict_ignores_settings. reflexivity. Defined.

(** ** A later hit after eviction and a colliding buffer *)

Lemma run_app api calls calls' g :
  run api (calls ++ calls') g = run api calls' (run api calls g).
Proof. unfold run. by rewrite fold_left_app. Qed.

Lemma numbered_calls_S k :
  numbered_calls (S k)
  = numbered_calls k ++ [(clock0, numbered_buffer (Z.of_nat (S k)))].
Proof. unfold numbered_calls. by rewrite seq_S, fmap_app. Qed.

Lemma numbered_fingerprint n :
  fingerprint fallback_api (numbered_buffer n) = numbered_hash n.
Proof. reflexivity. Qed.

Lemma numbered_hash_inj a b :
  0 <= a < 65536 → 0 <= b < 65536 → numbered_hash a = numbered_hash b → a = b.
Proof.
  intros Ha Hb Heq. apply (f_equal hash_number) in Heq.
  by rewrite !hash_number_numbered in Heq.
Qed.

Lemma numbered_hash_nonzero n :
  1 <= n < 65536 → numbered_hash n ≠ replicate 8 x00.
Proof.
  intros Hn Heq. apply (f_equal hash_number) in Heq.
  rewrite hash_number_numbered in Heq by lia.
  change (hash_number (replicate 8 x00)) with 0 in Heq. lia.
Qed.

Lemma numbered_hash_not_classical n :
  0 <= n <= TCP_CACHE_SIZE →
  numbered_hash n ≠ fingerprint fallback_api classical_bad_checksum.
Proof.
  unfold TCP_CACHE_SIZE. intros Hn Heq. apply (f_equal hash_number) in Heq.
  rewrite hash_number_numbered in Heq by lia.
  change (hash_number (fingerprint fallback_api classical_bad_checksum))
    with 21506 in Heq.
  lia.
Qed.

Lemma filling_start :
  filling (fingerprint fallback_api classical_bad_checksum) 0
    (tcp_validate_descriptor_kernel fallback_api clock0 classical_bad_checksum
       (tcp_kernel_init 0)).2.
Proof.
  pose proof cache_size_pos as HN.
  assert (Hmiss : tcp_cache_lookup (tcp_kernel_init 0)
                    (fingerprint fallback_api classical_bad_checksum) = None)
    by (vm_compute; reflexivity).
  split; [apply wf_validate, wf_init|].
  rewrite validate_miss by done. cbv zeta. cbn [snd].
  unfold with_ctx, tcp_cache_store, tcp_kernel_init. cbn [tcp_cache tcp_cache_head tcp_ctx].
  split; [reflexivity|]. split; [|split].
  - intros e [-> | He]%elem_of_insert_inv; [by right; left|].
    apply elem_of_replicate in He as [-> _]. by left.
  - intros j e Hj Hh.
    apply list_lookup_insert_Some in Hj as [(<- & _ & _) | [_ Hj]]; [done|].
    apply lookup_replicate in Hj as [-> _]. vm_compute in Hh. discriminate Hh.
  - intros Hk. lia.
Qed.

Lemma filling_step f k clk g :
  f = fingerprint fallback_api classical_bad_checksum →
  (S k ≤ Z.to_nat TCP_CACHE_SIZE)%nat →
  filling f k g →
  filling f (S k)
    (tcp_validate_descriptor_kernel fallback_api clk
       (numbered_buffer (Z.of_nat (S k))) g).2.
Proof.
  pose proof cache_size_pos as HN.
  intros -> Hk (Hwf & Hhead & Hkinds & Hslot0 & Hgone).
  set (f := fingerprint fallback_api classical_bad_checksum) in *.
  assert (Hrange : 1 <= Z.of_nat (S k) <= TCP_CACHE_SIZE) by lia.
  assert (Hsmall : TCP_CACHE_SIZE < 65536) by (unfold TCP_CACHE_SIZE; lia).
  assert (Hnew : numbered_hash (Z.of_nat (S k)) ≠ f)
    by (apply numbered_hash_not_classical; lia).
  assert (Hmiss : tcp_cache_lookup g
                    (fingerprint fallback_api (numbered_buffer (Z.of_nat (S k)))) = None).
  { rewrite numbered_fingerprint, lookup_wf by done. apply cache_scan_None.
    intros e He. destruct (Hkinds e He) as [Hz | [Hf | (j & Hj & Hn)]].
    - rewrite Hz. intros Heq. by apply (numbered_hash_nonzero (Z.of_nat (S k))); [lia|].
    - rewrite Hf. by intros Heq.
    - rewrite Hn. intros Heq%numbered_hash_inj; lia. }
  split; [by apply wf_validate|].
  rewrite validate_miss by done. cbv zeta. cbn [snd].
  unfold with_ctx, tcp_cache_store. cbn [tcp_cache tcp_cache_head tcp_ctx].
  rewrite numbered_fingerprint.
  split; [|split; [|split]].
  - pose proof (Z.mod_pos_bound (1 + Z.of_nat k) TCP_CACHE_SIZE).
    unfold u32, wrap. rewrite Hhead, (Z.mod_small (_ + 1)) by lia.
    rewrite Z.add_mod_idemp_l by lia. f_equal. lia.
  - intros e [-> | He]%elem_of_insert_inv.
    + right; right. exists (S k). split; [lia | done].
    + destruct (Hkinds e He) as [Hz | [Hf | (j & Hj & Hn)]]; [by left | by right; left |].
      right; right. exists j. split; [lia | done].
  - intros j e Hj Hh.
    apply list_lookup_insert_Some in Hj as [(_ & <- & _) | [_ Hj]]; [done|].
    by apply (Hslot0 j e).
  - intros Hfull e [j Hj]%list_elem_of_lookup Hh.
    apply list_lookup_insert_Some in Hj as [(_ & <- & _) | [Hjne Hj]]; [done|].
    pose proof (Hslot0 j e Hj Hh) as ->.
    destruct (decide (Z.to_nat TCP_CACHE_SIZE ≤ k)%nat) as [Hle|Hlt].
    + apply (Hgone Hle e); [by eapply list_elem_of_lookup_2 | done].
    + assert (Z.of_nat k = TCP_CACHE_SIZE - 1) as Hlast by lia.
      apply Hjne. rewrite Hhead, Hlast.
      replace (1 + (TCP_CACHE_SIZE - 1)) with TCP_CACHE_SIZE by lia.
      by rewrite Z.mod_same by lia.
Qed.

Lemma filling_run k :
  (k ≤ Z.to_nat TCP_CACHE_SIZE)%nat →
  filling (fingerprint fallback_api classical_bad_checksum) k
    (run fallback_api (numbered_calls k)
       (tcp_validate_descriptor_kernel fallback_api clock0 classical_bad_checksum
          (tcp_kernel_init 0)).2).
Proof.
  induction k as [|k IH]; intros Hk.
  - apply filling_start.
  - rewrite numbered_calls_S, run_app.
    apply (filling_step _ k clock0); [done | done | apply IH; lia].
Qed.

Lemma allowed_after_eviction g :
  wf g →
  (∀ e, e ∈ tcp_cache g →
     descriptor_hash e ≠ fingerprint fallback_api classical_bad_checksum) →
  let g' := (tcp_validate_descriptor_kernel fallback_api clock0 classical_flag2 g).2 in
  tcp_cache_lookup g' (fingerprint fallback_api classical_bad_checksum) = Some 1
  ∧ (tcp_validate_descriptor_kernel fallback_api clock0 classical_bad_checksum g').1 = 1.
Proof.
  intros Hwf Hgone g'.
  assert (Hmiss : tcp_cache_lookup g (fingerprint fallback_api classical_flag2) = None).
  { rewrite lookup_wf by done. apply cache_scan_None. intros e He. by apply Hgone. }
  assert (Hhit : tcp_cache_lookup g' (fingerprint fallback_api classical_bad_checksum)
                 = Some 1).
  { unfold g'. rewrite validate_miss by done. cbv zeta. cbn [snd].
    change (fingerprint fallback_api classical_bad_checksum)
      with (fingerprint fallback_api classical_flag2).
    rewrite lookup_with_ctx, lookup_store_fresh by done.
    rewrite (validation_result_ctx fallback_api _ (tcp_ctx (tcp_kernel_init 0))).
    reflexivity. }
  split; [exact Hhit|].
  rewrite (validate_hit _ _ _ _ _ Hhit). reflexivity.
Qed.

(** C10, counterexample. Without the SHA-256 transform: a Classical
    descriptor with a wrong checksum is rejected with [-EINVAL] on the fresh
    module; [TCP_CACHE_SIZE] other buffers are validated, which evicts its
    entry; a valid descriptor with the same first eight bytes is validated
    and cached as allowed; the rejected descriptor then hits the cache and
    is answered 1. *)
Lemma later_hit_answers_allow :
  let g1 := (tcp_validate_descriptor_kernel fallback_api clock0 classical_bad_checksum
               (tcp_kernel_init 0)).2 in
  let g2 := run fallback_api
              (numbered_calls (Z.to_nat TCP_CACHE_SIZE) ++ [(clock0, classical_flag2)])
              g1 in
  (tcp_validate_descriptor_kernel fallback_api clock0 classical_bad_checksum
     (tcp_kernel_init 0)).1 = - EINVAL
  ∧ tcp_cache_lookup g2 (fingerprint fallback_api classical_bad_checksum) = Some 1
  ∧ (tcp_validate_descriptor_kernel fallback_api clock0 classical_bad_checksum g2).1 = 1.
Proof.
  cbv zeta. split; [vm_compute; reflexivity|].
  rewrite run_app.
  destruct (filling_run (Z.to_nat TCP_CACHE_SIZE) ltac:(lia))
    as (Hwf & _ & _ & _ & Hgone).
  exact (allowed_after_eviction _ Hwf (Hgone ltac:(lia))).
Qed.
End ValidatorFacts.

Module SyscallFacts.
Import Syscall.

Lemma find_in_None table nr :
  find_in table nr = None ↔ ∀ desc, desc ∈ table → syscall_nr desc ≠ nr.
Proof.
  induction table as [|d table IH]; simpl.
  - split; [intros _ desc Hin; inversion Hin | done].
  - destruct (Z.eqb_spec (syscall_nr d) nr) as [Heq|Hne].
    + split; [done|]. intros H. exfalso. apply (H d); [left | done].
    + rewrite IH. split.
      * intros H desc [->|Hin]%elem_of_cons; auto.
      * intros H desc Hin. apply H. by right.
Qed.

Lemma s64_small x : - 2 ^ 63 <= x < 2 ^ 63 → s64 x = x.
Proof.
  intros H. unfold s64, swrap. change (2 ^ (64 - 1)) with (2 ^ 63).
  rewrite Z.mod_small; lia.
Qed.

Lemma atomic64_inc_small x : - 2 ^ 63 <= x < 2 ^ 63 - 1 → atomic64_inc x = x + 1.
Proof. intros H. unfold atomic64_inc. apply s64_small. lia. Qed.

(** The registry entry found for the module-load number, provided the two
    entries before it carry other numbers. *)
Lemma find_module_load nrs :
  NR_unlink nrs ≠ NR_init_module nrs →
  NR_execve nrs ≠ NR_init_module nrs →
  tcp_find_descriptor nrs (NR_init_module nrs) = Some (module_load_descriptor nrs).
Proof.
  intros H1 H2. unfold tcp_find_descriptor, tcp_descriptors, find_in.
  cbn [syscall_nr].
  destruct (Z.eqb_spec (NR_unlink nrs) (NR_init_module nrs)); [done|].
  destruct (Z.eqb_spec (NR_execve nrs) (NR_init_module nrs)); [done|].
  by rewrite Z.eqb_refl.
Qed.

(** The context check fails for an unprivileged task outside any container
    against the Admin|Kernel mask. *)
Lemma module_load_context_mismatch nrs current :
  cred_uid current ≠ 0 → nsproxy_is_init current = true →
  tcp_check_context (module_load_descriptor nrs) current = false.
Proof.
  intros Huid Hns. unfold tcp_check_context. rewrite Hns.
  destruct (Z.eqb_spec (cred_uid current) 0); [done|]. reflexivity.
Qed.

(** C3 (as amended). For the module-load number and an unprivileged caller
    outside any container, the analysis returns [-EPERM] at every security
    level, 0 and 2 included: the caller's User context does not meet the
    entry's Admin|Kernel mask.  The call counts one blocked operation and
    no security event. *)
Theorem module_load_denied_by_context nrs current orig_ax st :
  enabled st = true →
  s32 orig_ax = NR_init_module nrs →
  NR_unlink nrs ≠ NR_init_module nrs →
  NR_execve nrs ≠ NR_init_module nrs →
  cred_uid current ≠ 0 →
  nsproxy_is_init current = true →
  - 2 ^ 63 <= blocked_operations (stats st) < 2 ^ 63 - 1 →
  let '(result, st') := tcp_analyze_syscall nrs current orig_ax st in
  result = - EPERM
  ∧ blocked_operations (stats st') = blocked_operations (stats st) + 1
  ∧ security_events (stats st') = security_events (stats st)
  ∧ fast_path_hits (stats st') = fast_path_hits (stats st).
Proof.
  intros Hen Hnr H1 H2 Huid Hns Hrange.
  unfold tcp_analyze_syscall. rewrite Hen, Hnr, find_module_load by done.
  cbn [negb]. cbv iota.
  replace (nonzero (Z.land (security_flags (module_load_descriptor nrs)) TCP_FLAG_SAFE))
    with false by reflexivity.
  rewrite module_load_context_mismatch by done. cbn [negb]. cbv iota.
  cbn. rewrite atomic64_inc_small by done. done.
Qed.

Lemma module_load_denied_by_context_witness :
  (tcp_analyze_syscall x86_64_numbers unprivileged_task 175
     (with_security_level tcp_kernel_init 2)).1 = - EPERM
  ∧ (tcp_analyze_syscall x86_64_numbers unprivileged_task 175
       (with_security_level tcp_kernel_init 0)).1 = - EPERM.
Proof.
  split.
  - pose proof (module_load_denied_by_context x86_64_numbers unprivileged_task 175
                  (with_security_level tcp_kernel_init 2)) as H.
    destruct (tcp_analyze_syscall _ _ _ _) as [result st'].
    apply H; vm_compute; (reflexivity || congruence || (split; congruence)).
  - pose proof (module_load_denied_by_context x86_64_numbers unprivileged_task 175
                  (with_security_level tcp_kernel_init 0)) as H.
    destruct (tcp_analyze_syscall _ _ _ _) as [result st'].
    apply H; vm_compute; (reflexivity || congruence || (split; congruence)).
Defined.

(** C3, counterexample. At security level 0 the module-load number from an
    unprivileged, uncontained caller is not allowed: the result is [-EPERM],
    and no security event is counted. *)
Lemma module_load_level0_not_allowed :
  let st := with_security_level tcp_kernel_init 0 in
  let '(result, st') := tcp_analyze_syscall x86_64_numbers unprivileged_task 175 st in
  syscall_nr (module_load_descriptor x86_64_numbers) = 175
  ∧ result = - EPERM ∧ result ≠ 0
  ∧ security_events (stats st') = security_events (stats st)
  ∧ blocked_operations (stats st') = blocked_operations (stats st) + 1.
Proof. vm_compute. repeat split; congruence. Qed.

(** C7. With the module enabled, a number that no registry entry carries is
    allowed, whatever the caller and the security level; the call adds one
    to [fast_path_hits] and leaves [blocked_operations], [security_events]
    and [false_positives] as they were. *)
Theorem unknown_syscall_fast_path nrs current orig_ax st :
  enabled st = true →
  (∀ desc, desc ∈ tcp_descriptors nrs → syscall_nr desc ≠ s32 orig_ax) →
  - 2 ^ 63 <= fast_path_hits (stats st) < 2 ^ 63 - 1 →
  let '(result, st') := tcp_analyze_syscall nrs current orig_ax st in
  result = 0
  ∧ fast_path_hits (stats st') = fast_path_hits (stats st) + 1
  ∧ blocked_operations (stats st') = blocked_operations (stats st)
  ∧ security_events (stats st') = security_events (stats st)
  ∧ false_positives (stats st') = false_positives (stats st)
  ∧ total_checks (stats st') = atomic64_inc (total_checks (stats st))
  ∧ security_level st' = security_level st.
Proof.
  intros Hen Hunknown Hrange.
  unfold tcp_analyze_syscall. rewrite Hen. cbn [negb]. cbv iota.
  unfold tcp_find_descriptor.
  apply find_in_None in Hunknown. rewrite Hunknown. cbn.
  rewrite atomic64_inc_small by done. done.
Qed.

Lemma unknown_syscall_fast_path_witness :
  (tcp_analyze_syscall x86_64_numbers unprivileged_task 1 tcp_kernel_init).1 = 0.
Proof.
  pose proof (unknown_syscall_fast_path x86_64_numbers unprivileged_task 1
                tcp_kernel_init) as H.
  destruct (tcp_analyze_syscall _ _ _ _) as [result st'].
  apply H.
  - reflexivity.
  - intros desc Hin. vm_compute in Hin.
    repeat (apply elem_of_cons in Hin as [-> | Hin]; [vm_compute; congruence|]).
    inversion Hin.
  - vm_compute. split; congruence.
Defined.


(** ** The registry *)

Lemma find_in_Some table nr desc :
  find_in table nr = Some desc → desc ∈ table ∧ syscall_nr desc = nr.
Proof.
  induction table as [|d table IH]; simpl; [done|].
  destruct (Z.eqb_spec (syscall_nr d) nr) as [Heq|Hne].
  - intros [= <-]. split; [left | done].
  - intros [Hin Hnr]%IH. split; [by right | done].
Qed.

Lemma find_in_NoDup table desc :
  NoDup (syscall_nr <$> table) → desc ∈ table →
  find_in table (syscall_nr desc) = Some desc.
Proof.
  induction table as [|d table IH]; simpl; intros Hnd Hin; [inversion Hin|].
  apply NoDup_cons in Hnd as [Hfresh Hnd].
  apply elem_of_cons in Hin as [->|Hin]; [by rewrite Z.eqb_refl|].
  destruct (Z.eqb_spec (syscall_nr d) (syscall_nr desc)) as [Heq|Hne]; [|by apply IH].
  exfalso. apply Hfresh. rewrite Heq. by apply list_elem_of_fmap_2.
Qed.

(** X1. When the four syscall numbers are pairwise distinct, looking up the
    number of any table entry returns that very entry; and whatever the
    numbers are, a successful lookup returns an entry of the table that
    carries the number asked for. *)
Theorem registry_lookup_round_trip nrs :
  (NoDup [NR_unlink nrs; NR_execve nrs; NR_init_module nrs; NR_getpid nrs] →
   ∀ desc, desc ∈ tcp_descriptors nrs →
     tcp_find_descriptor nrs (syscall_nr desc) = Some desc)
  ∧ (∀ nr desc, tcp_find_descriptor nrs nr = Some desc →
       desc ∈ tcp_descriptors nrs ∧ syscall_nr desc = nr).
Proof.
  split.
  - intros Hnd desc Hin. by apply find_in_NoDup.
  - intros nr desc. apply find_in_Some.
Qed.

Lemma registry_lookup_round_trip_witness :
  tcp_find_descriptor x86_64_numbers 175 = Some (module_load_descriptor x86_64_numbers).
Proof.
  apply (proj1 (registry_lookup_round_trip x86_64_numbers)
           ltac:(compute_done)
           (module_load_descriptor x86_64_numbers)).
  unfold tcp_descriptors, module_load_descriptor. do 2 right. left.
Defined.

(** ** The context check *)

Lemma land_pow2 m k :
  0 <= k → Z.land m (2 ^ k) = if Z.testbit m k then 2 ^ k else 0.
Proof.
  intros Hk. apply Z.bits_inj'. intros n Hn.
  rewrite Z.land_spec, Z.pow2_bits_eqb by done.
  destruct (Z.eqb_spec k n) as [->|Hne].
  - destruct (Z.testbit m n); simpl.
    + by rewrite Z.pow2_bits_true.
    + by rewrite Z.bits_0.
  - rewrite andb_false_r. destruct (Z.testbit m k).
    + by rewrite Z.pow2_bits_false.
    + by rewrite Z.bits_0.
Qed.

Lemma nonzero_land_pow2 m k :
  0 <= k → nonzero (Z.land m (2 ^ k)) = Z.testbit m k.
Proof.
  intros Hk. rewrite land_pow2 by done. unfold nonzero.
  destruct (Z.testbit m k); [|done].
  pose proof (Z.pow_pos_nonneg 2 k). by destruct (Z.eqb_spec (2 ^ k) 0); [lia|].
Qed.

Lemma nonzero_land_lor m a b :
  nonzero (Z.land m (Z.lor a b)) = nonzero (Z.land m a) || nonzero (Z.land m b).
Proof.
  rewrite Z.land_lor_distr_r. unfold nonzero.
  destruct (Z.eqb_spec (Z.land m a) 0) as [Ea|Ea],
           (Z.eqb_spec (Z.land m b) 0) as [Eb|Eb]; simpl;
    destruct (Z.eqb_spec (Z.lor (Z.land m a) (Z.land m b)) 0) as [E|E];
    try done; rewrite Z.lor_eq_0_iff in E; tauto.
Qed.

Lemma check_context_bits desc current :
  tcp_check_context desc current =
    (if cred_uid current =? 0 then Z.testbit (context_mask desc) 1
     else Z.testbit (context_mask desc) 0)
    || (negb (nsproxy_is_init current) && Z.testbit (context_mask desc) 3).
Proof.
  unfold tcp_check_context.
  change TCP_CTX_ADMIN with (2 ^ 1). change TCP_CTX_USER with (2 ^ 0).
  change TCP_CTX_CONTAINER with (2 ^ 3).
  rewrite !Z.lor_0_l.
  destruct (cred_uid current =? 0), (nsproxy_is_init current); simpl negb; cbv iota;
    rewrite ?nonzero_land_lor, !nonzero_land_pow2 by lia;
    by rewrite ?orb_false_r.
Qed.

(** X2. The context check passes exactly when the entry's mask has the
    Admin bit for a uid-0 caller, the User bit for any other caller, or the
    Container bit for a caller outside the initial namespaces.  The Kernel
    bit is never consulted: a mask that is only [TCP_CTX_KERNEL] fails for
    every caller, and [TCP_CTX_ALL] passes for every caller. *)
Theorem context_check_decided_by_three_bits :
  (∀ desc current,
     tcp_check_context desc current = true ↔
       (cred_uid current = 0 ∧ Z.testbit (context_mask desc) 1 = true)
       ∨ (cred_uid current ≠ 0 ∧ Z.testbit (context_mask desc) 0 = true)
       ∨ (nsproxy_is_init current = false ∧ Z.testbit (context_mask desc) 3 = true))
  ∧ (∀ desc current,
       context_mask desc = TCP_CTX_KERNEL → tcp_check_context desc current = false)
  ∧ (∀ desc current,
       context_mask desc = TCP_CTX_ALL → tcp_check_context desc current = true).
Proof.
  split; [|split].
  - intros desc current. rewrite check_context_bits.
    destruct (Z.eqb_spec (cred_uid current) 0) as [Huid|Huid],
             (nsproxy_is_init current),
             (Z.testbit (context_mask desc) 0),
             (Z.testbit (context_mask desc) 1),
             (Z.testbit (context_mask desc) 3); simpl;
      (split; [intros H; try discriminate H; by auto
             | intros [[? ?]|[[? ?]|[? ?]]]; done || congruence]).
  - intros desc current Hmask. rewrite check_context_bits, Hmask.
    by destruct (cred_uid current =? 0), (nsproxy_is_init current).
  - intros desc current Hmask. rewrite check_context_bits, Hmask.
    by destruct (cred_uid current =? 0), (nsproxy_is_init current).
Qed.

Lemma context_check_decided_by_three_bits_witness :
  tcp_check_context (module_load_descriptor x86_64_numbers)
    {| cred_uid := 0; nsproxy_is_init := true |} = true.
Proof.
  apply (proj1 context_check_decided_by_three_bits). left. split; reflexivity.
Defined.

(** ** One analysis *)

Lemma s32_shift x k : s32 (x + k * 2 ^ 32) = s32 x.
Proof.
  unfold s32, swrap. change (2 ^ (32 - 1)) with (2 ^ 31).
  replace (x + k * 2 ^ 32 + 2 ^ 31) with (x + 2 ^ 31 + k * 2 ^ 32) by lia.
  by rewrite Z_mod_plus_full.
Qed.

(** X3. Only the low 32 bits of [orig_ax] reach the analysis: two values
    that differ by a multiple of 2^32 are analysed alike. *)
Theorem analysis_ignores_high_bits nrs current orig_ax k st :
  tcp_analyze_syscall nrs current (orig_ax + k * 2 ^ 32) st
  = tcp_analyze_syscall nrs current orig_ax st.
Proof. unfold tcp_analyze_syscall. by rewrite s32_shift. Qed.

Lemma escalation_result desc current st :
  (escalation desc current st).1 =
    if nonzero (Z.land (security_flags desc) TCP_FLAG_CRITICAL)
       && (security_level st >=? 2) && negb (cred_uid current =? 0)
    then - EPERM else 0.
Proof.
  unfold escalation.
  destruct (nonzero (Z.land (security_flags desc) TCP_FLAG_CRITICAL)); simpl.
  - destruct (_ && _); simpl; [done|]. by destruct (nonzero _).
  - by destruct (nonzero _).
Qed.

(** X4. With the module enabled the analysis returns 0 or [-EPERM], and
    [-EPERM] exactly when the number has a registry entry without the Safe
    flag and either the context check fails or the entry is Critical, the
    security level is at least 2 and the caller is not uid 0. *)
Theorem analysis_denies_iff nrs current orig_ax st :
  enabled st = true →
  let result := (tcp_analyze_syscall nrs current orig_ax st).1 in
  (result = 0 ∨ result = - EPERM)
  ∧ (result = - EPERM ↔
       ∃ desc, tcp_find_descriptor nrs (s32 orig_ax) = Some desc
         ∧ nonzero (Z.land (security_flags desc) TCP_FLAG_SAFE) = false
         ∧ (tcp_check_context desc current = false
            ∨ (nonzero (Z.land (security_flags desc) TCP_FLAG_CRITICAL) = true
               ∧ 2 <= security_level st
               ∧ cred_uid current ≠ 0))).
Proof.
  intros Hen result. unfold result, tcp_analyze_syscall. rewrite Hen. cbn [negb].
  cbv iota.
  destruct (tcp_find_descriptor nrs (s32 orig_ax)) as [desc|]; cbn [fst].
  2:{ split; [by left|]. split; [done | by intros (? & ? & _)]. }
  destruct (nonzero (Z.land (security_flags desc) TCP_FLAG_SAFE)) eqn:Hsafe; cbn [fst].
  { split; [by left|]. split; [done|]. intros (d & [= <-] & Hs & _). congruence. }
  destruct (tcp_check_context desc current) eqn:Hctx; cbn [negb fst]; cbv iota.
  2:{ split; [by right|]. split; [|done]. intros _. exists desc. auto. }
  rewrite escalation_result. cbn [security_level inc_total_checks with_stats].
  destruct (nonzero (Z.land (security_flags desc) TCP_FLAG_CRITICAL)) eqn:Hcrit;
    destruct (Z.geb_spec (security_level st) 2) as [Hlvl|Hlvl];
    destruct (Z.eqb_spec (cred_uid current) 0) as [Huid|Huid]; simpl;
    (split; [auto|]); split; try done;
    try (intros _; exists desc; by auto 10);
    intros (d & [= <-] & _ & [?|(? & ? & ?)]); try congruence; lia.
Qed.

Lemma analysis_denies_iff_witness :
  (tcp_analyze_syscall x86_64_numbers unprivileged_task 59
     (with_security_level tcp_kernel_init 2)).1 = - EPERM.
Proof.
  apply (proj2 (analysis_denies_iff x86_64_numbers unprivileged_task 59
                  (with_security_level tcp_kernel_init 2) eq_refl)).
  eexists. split; [reflexivity|]. split; [reflexivity|]. right.
  split; [reflexivity|]. split; [vm_compute; congruence | vm_compute; congruence].
Defined.

(** X5. A caller with uid 0 is never denied: every registry entry admits
    the Admin context, and the escalation spares uid 0. *)
Theorem root_never_denied nrs current orig_ax st :
  cred_uid current = 0 →
  (tcp_analyze_syscall nrs current orig_ax st).1 = 0.
Proof.
  intros Huid. unfold tcp_analyze_syscall.
  destruct (enabled st); cbn [negb]; cbv iota; [|done].
  destruct (tcp_find_descriptor nrs (s32 orig_ax)) as [desc|] eqn:Hfind; [|done].
  destruct (nonzero (Z.land (security_flags desc) TCP_FLAG_SAFE)); [done|].
  apply find_in_Some in Hfind as [Hin _].
  assert (Hctx : tcp_check_context desc current = true).
  { rewrite check_context_bits, Huid. cbn [Z.eqb].
    unfold tcp_descriptors in Hin.
    repeat (apply elem_of_cons in Hin as [-> | Hin]; [reflexivity|]).
    inversion Hin. }
  rewrite Hctx. cbn [negb]. cbv iota.
  rewrite escalation_result, Huid. cbn [Z.eqb negb]. by rewrite andb_false_r.
Qed.

Lemma root_never_denied_witness :
  (tcp_analyze_syscall x86_64_numbers {| cred_uid := 0; nsproxy_is_init := false |} 175
     (with_security_level tcp_kernel_init 6)).1 = 0.
Proof. apply root_never_denied. reflexivity. Defined.

Lemma analysis_result nrs current orig_ax st :
  enabled st = true →
  (tcp_analyze_syscall nrs current orig_ax st).1 =
    match tcp_find_descriptor nrs (s32 orig_ax) with
    | None => 0
    | Some desc =>
        if nonzero (Z.land (security_flags desc) TCP_FLAG_SAFE) then 0
        else if negb (tcp_check_context desc current) then - EPERM
        else if nonzero (Z.land (security_flags desc) TCP_FLAG_CRITICAL)
                && (security_level st >=? 2) && negb (cred_uid current =? 0)
        then - EPERM else 0
    end.
Proof.
  intros Hen. unfold tcp_analyze_syscall. rewrite Hen. cbn [negb]. cbv iota.
  destruct (tcp_find_descriptor nrs (s32 orig_ax)) as [desc|]; [|done].
  destruct (nonzero (Z.land (security_flags desc) TCP_FLAG_SAFE)); [done|].
  destruct (negb (tcp_check_context desc current)); [done|].
  by rewrite escalation_result.
Qed.

(** X6. The decision table of the four registry entries, for pairwise
    distinct syscall numbers and the module enabled: the pid query and the
    file deletion are allowed for every caller at every level; program
    execution is denied exactly for a non-root caller at level 2 or above;
    module loading is denied exactly for a non-root caller, at every
    level. *)
Theorem registry_decision_table nrs current orig_ax st :
  enabled st = true →
  NoDup [NR_unlink nrs; NR_execve nrs; NR_init_module nrs; NR_getpid nrs] →
  let result := (tcp_analyze_syscall nrs current orig_ax st).1 in
  (s32 orig_ax = NR_getpid nrs → result = 0)
  ∧ (s32 orig_ax = NR_unlink nrs → result = 0)
  ∧ (s32 orig_ax = NR_execve nrs →
       (result = - EPERM ↔ 2 <= security_level st ∧ cred_uid current ≠ 0)
       ∧ (result = 0 ∨ result = - EPERM))
  ∧ (s32 orig_ax = NR_init_module nrs →
       (result = - EPERM ↔ cred_uid current ≠ 0)
       ∧ (result = 0 ∨ result = - EPERM)).
Proof.
  intros Hen Hnd result. unfold result. rewrite analysis_result by done.
  assert (Hfind : ∀ desc, desc ∈ tcp_descriptors nrs →
            tcp_find_descriptor nrs (syscall_nr desc) = Some desc).
  { intros desc Hin. by apply find_in_NoDup. }
  split; [|split; [|split]]; intros ->.
  - pose proof (Hfind (tcp_descriptors_getpid nrs)) as Hf.
    change (syscall_nr (tcp_descriptors_getpid nrs)) with (NR_getpid nrs) in Hf.
    rewrite Hf by (unfold tcp_descriptors; do 3 right; left).
    reflexivity.
  - pose proof (Hfind (tcp_descriptors_unlink nrs)) as Hf.
    change (syscall_nr (tcp_descriptors_unlink nrs)) with (NR_unlink nrs) in Hf.
    rewrite Hf by (unfold tcp_descriptors; left).
    replace (nonzero (Z.land (security_flags (tcp_descriptors_unlink nrs)) TCP_FLAG_SAFE))
      with false by reflexivity.
    replace (nonzero (Z.land (security_flags (tcp_descriptors_unlink nrs)) TCP_FLAG_CRITICAL))
      with false by reflexivity.
    rewrite check_context_bits.
    by destruct (cred_uid current =? 0), (nsproxy_is_init current).
  - pose proof (Hfind (tcp_descriptors_execve nrs)) as Hf.
    change (syscall_nr (tcp_descriptors_execve nrs)) with (NR_execve nrs) in Hf.
    rewrite Hf by (unfold tcp_descriptors; right; left).
    replace (nonzero (Z.land (security_flags (tcp_descriptors_execve nrs)) TCP_FLAG_SAFE))
      with false by reflexivity.
    replace (nonzero (Z.land (security_flags (tcp_descriptors_execve nrs)) TCP_FLAG_CRITICAL))
      with true by reflexivity.
    rewrite check_context_bits.
    destruct (Z.geb_spec (security_level st) 2) as [Hl|Hl],
             (Z.eqb_spec (cred_uid current) 0) as [Hu|Hu],
             (nsproxy_is_init current); simpl;
      (split; [split; [intros Hr; try discriminate Hr; split; lia
                      | intros [? ?]; lia || reflexivity]
              | auto]).
  - pose proof (Hfind (module_load_descriptor nrs)) as Hf.
    change (syscall_nr (module_load_descriptor nrs)) with (NR_init_module nrs) in Hf.
    rewrite Hf by (unfold tcp_descriptors; do 2 right; left).
    replace (nonzero (Z.land (security_flags (module_load_descriptor nrs)) TCP_FLAG_SAFE))
      with false by reflexivity.
    replace (nonzero (Z.land (security_flags (module_load_descriptor nrs)) TCP_FLAG_CRITICAL))
      with true by reflexivity.
    rewrite check_context_bits.
    destruct (Z.geb_spec (security_level st) 2) as [Hl|Hl],
             (Z.eqb_spec (cred_uid current) 0) as [Hu|Hu],
             (nsproxy_is_init current); simpl;
      (split; [split; [intros Hr; try discriminate Hr; done
                      | intros ?; done || reflexivity]
              | auto]).
Qed.

Lemma registry_decision_table_witness :
  (tcp_analyze_syscall x86_64_numbers unprivileged_task 87
     (with_security_level tcp_kernel_init 6)).1 = 0.
Proof.
  apply (proj1 (proj2 (registry_decision_table x86_64_numbers unprivileged_task 87
                         (with_security_level tcp_kernel_init 6) eq_refl
                         ltac:(compute_done)))).
  reflexivity.
Defined.

(** ** Counters *)

Ltac count_up :=
  cbn [stats with_stats inc_total_checks inc_fast_path_hits inc_blocked_operations
       inc_security_events total_checks fast_path_hits blocked_operations
       security_events false_positives enabled security_level fst snd];
  rewrite ?(atomic64_inc_small (security_events (stats _))) by lia;
  rewrite ?atomic64_inc_small by lia;
  change (- EPERM =? 0) with false; change (0 =? 0) with true; cbv iota.



(** X8. For an allowed call on a registry entry without the Safe flag, the
    number of security events recorded is the number of its Critical and
    Destructive flags, so a Critical and Destructive operation counts twice;
    a call denied by the escalation still records its one Critical event. *)
Theorem security_events_accounting nrs current orig_ax st desc :
  enabled st = true →
  tcp_find_descriptor nrs (s32 orig_ax) = Some desc →
  nonzero (Z.land (security_flags desc) TCP_FLAG_SAFE) = false →
  tcp_check_context desc current = true →
  - 2 ^ 63 <= security_events (stats st) < 2 ^ 63 - 2 →
  let '(result, st') := tcp_analyze_syscall nrs current orig_ax st in
  security_events (stats st')
  = security_events (stats st)
    + flag_count (security_flags desc) TCP_FLAG_CRITICAL
    + (if result =? 0 then flag_count (security_flags desc) TCP_FLAG_DESTRUCTIVE else 0).
Proof.
  intros Hen Hfind Hsafe Hctx Hev.
  unfold tcp_analyze_syscall, escalation, flag_count.
  rewrite Hen, Hfind, Hsafe, Hctx. cbn [negb]. cbv iota.
  destruct (nonzero (Z.land (security_flags desc) TCP_FLAG_CRITICAL));
    destruct (nonzero (Z.land (security_flags desc) TCP_FLAG_DESTRUCTIVE));
    count_up;
    try destruct ((security_level st >=? 2) && negb (cred_uid current =? 0));
    count_up; simpl; lia.
Qed.

Lemma security_events_accounting_witness :
  security_events
    (stats (tcp_analyze_syscall x86_64_numbers
              {| cred_uid := 0; nsproxy_is_init := true |} 175 tcp_kernel_init).2) = 2.
Proof.
  pose proof (security_events_accounting x86_64_numbers
                {| cred_uid := 0; nsproxy_is_init := true |} 175 tcp_kernel_init
                (module_load_descriptor x86_64_numbers)
                eq_refl eq_refl eq_refl eq_refl) as H.
  destruct (tcp_analyze_syscall _ _ _ _) as [result st'] eqn:E.
  cbn [snd]. rewrite H by (vm_compute; split; congruence).
  vm_compute in E. injection E as <- _. reflexivity.
Defined.

(** ** Runs of the probe *)

Lemma analysis_step nrs current orig_ax st k :
  enabled st = true →
  0 <= k < 2 ^ 61 →
  stats_within k (stats st) →
  let '(result, st') := tcp_analyze_syscall nrs current orig_ax st in
  stats_within (k + 1) (stats st') ∧ enabled st' = true
  ∧ security_level st' = security_level st.
Proof.
  intros Hen Hk (Htot & Hfast & Hblk & Hsum & Hev & Hfp).
  unfold tcp_analyze_syscall, escalation, stats_within. rewrite Hen.
  cbn [negb]. cbv iota.
  destruct (tcp_find_descriptor nrs (s32 orig_ax)) as [desc|].
  2:{ count_up. repeat split; lia || done. }
  destruct (nonzero (Z.land (security_flags desc) TCP_FLAG_SAFE)).
  { count_up. repeat split; lia || done. }
  destruct (tcp_check_context desc current); cbn [negb]; cbv iota.
  2:{ count_up. repeat split; lia || done. }
  destruct (nonzero (Z.land (security_flags desc) TCP_FLAG_CRITICAL));
    destruct (nonzero (Z.land (security_flags desc) TCP_FLAG_DESTRUCTIVE));
    count_up;
    try destruct ((security_level st >=? 2) && negb (cred_uid current =? 0));
    count_up; repeat split; lia || done.
Qed.



Lemma handle_all_cons nrs call calls st :
  handle_all nrs (call :: calls) st
  = handle_all nrs calls (tcp_syscall_pre_handler nrs call.1 call.2 st).2.
Proof. reflexivity. Qed.

Lemma pre_handler_state nrs current orig_ax st :
  (tcp_syscall_pre_handler nrs current orig_ax st).2
  = (tcp_analyze_syscall nrs current orig_ax st).2.
Proof.
  unfold tcp_syscall_pre_handler. by destruct (tcp_analyze_syscall _ _ _ _).
Qed.

Lemma handle_all_within nrs calls : ∀ st k,
  enabled st = true →
  0 <= k → k + Z.of_nat (length calls) < 2 ^ 61 →
  stats_within k (stats st) →
  let st' := handle_all nrs calls st in
  stats_within (k + Z.of_nat (length calls)) (stats st')
  ∧ enabled st' = true ∧ security_level st' = security_level st.
Proof.
  induction calls as [|[current orig_ax] calls IH]; intros st k Hen Hk Hlen Hin.
  - simpl. by rewrite Z.add_0_r.
  - rewrite handle_all_cons, pre_handler_state. cbn [fst snd length] in *.
    pose proof (analysis_step nrs current orig_ax st k Hen ltac:(lia) Hin) as Hstep.
    destruct (tcp_analyze_syscall nrs current orig_ax st) as [result st1].
    destruct Hstep as (Hin1 & Hen1 & Hlvl1). cbn [snd].
    destruct (IH st1 (k + 1) Hen1 ltac:(lia) ltac:(lia) Hin1) as (Hin' & Hen' & Hlvl').
    replace (k + Z.of_nat (S (length calls))) with (k + 1 + Z.of_nat (length calls))
      by lia.
    cbv zeta. split; [exact Hin' | split; [exact Hen' | congruence]].
Qed.

(** X9. The probe's pre-handler returns 0 whatever the analysis found, so
    no system call is stopped; and after the probe has fired for [n] calls
    on the freshly initialised module, [total_checks] is [n], the fast-path
    hits and the blocked operations together are at most [n], there are at
    most [2 n] security events and [false_positives] is still 0. *)
Theorem probe_counts_and_never_blocks nrs :
  (∀ current orig_ax st, (tcp_syscall_pre_handler nrs current orig_ax st).1 = 0)
  ∧ (∀ calls, Z.of_nat (length calls) < 2 ^ 61 →
       let s := stats (handle_all nrs calls tcp_kernel_init) in
       total_checks s = Z.of_nat (length calls)
       ∧ 0 <= fast_path_hits s ∧ 0 <= blocked_operations s
       ∧ fast_path_hits s + blocked_operations s <= total_checks s
       ∧ 0 <= security_events s <= 2 * total_checks s
       ∧ false_positives s = 0).
Proof.
  split.
  - intros current orig_ax st. unfold tcp_syscall_pre_handler.
    by destruct (tcp_analyze_syscall _ _ _ _).
  - intros calls Hlen s.
    destruct (handle_all_within nrs calls tcp_kernel_init 0 eq_refl ltac:(lia)
                ltac:(lia)) as ((Htot & ? & ? & ? & ? & ?) & _).
    { vm_compute. repeat split; congruence. }
    unfold s. rewrite Htot. repeat split; lia || done.
Qed.

Lemma probe_counts_and_never_blocks_witness :
  total_checks (stats (handle_all x86_64_numbers
                         [(unprivileged_task, 175); (unprivileged_task, 39)]
                         tcp_kernel_init)) = 2.
Proof.
  apply (proj2 (probe_counts_and_never_blocks x86_64_numbers)
           [(unprivileged_task, 175); (unprivileged_task, 39)]).
  vm_compute. reflexivity.
Defined.

(** X10. Once [tcp_kernel_exit] has cleared the enable flag the analysis
    is inert: every call returns 0 and no sequence of calls changes the
    state, so the counters keep their final values. *)
Theorem analysis_inert_after_exit nrs st :
  (∀ current orig_ax,
     tcp_analyze_syscall nrs current orig_ax (tcp_kernel_exit st)
     = (0, tcp_kernel_exit st))
  ∧ (∀ calls, handle_all nrs calls (tcp_kernel_exit st) = tcp_kernel_exit st).
Proof.
  assert (Hone : ∀ current orig_ax,
            tcp_analyze_syscall nrs current orig_ax (tcp_kernel_exit st)
            = (0, tcp_kernel_exit st)) by done.
  split; [exact Hone|].
  induction calls as [|[current orig_ax] calls IH]; [done|].
  by rewrite handle_all_cons, pre_handler_state, Hone.
Qed.
End SyscallFacts.
